(** * dashboard.py: the status aggregation pipeline

    A shallow embedding of the request handlers of [DashboardHandler]
    ([serve_status], [serve_git_activity], [get_module_commits],
    [get_last_activity]) together with the parts of the Python runtime they
    rely on: [str] methods, [int()], and the backtracking matcher behind
    [re.findall].

    A Python [str] is a sequence of Unicode code points, so it is modelled as
    a list of code points; nothing below works on bytes. *)

From Stdlib Require Import List NArith ZArith Lia Bool String Ascii.
Import ListNotations.

(** ** Python strings *)

Module PyStr.

Definition codepoint := N.
Definition str := list codepoint.

Definition eqb (a b : str) : bool :=
  if list_eq_dec N.eq_dec a b then true else false.

(** An ASCII literal as a [str]. *)
Fixpoint lit (s : string) : str :=
  match s with
  | EmptyString => []
  | String c s' => N_of_ascii c :: lit s'
  end.

Definition LF : codepoint := 10%N.

(** [str.isspace] on one code point: the code points the interpreter's
    Unicode database classes as whitespace. *)
Definition whitespace : list codepoint :=
  [0x9; 0xA; 0xB; 0xC; 0xD; 0x1C; 0x1D; 0x1E; 0x1F; 0x20; 0x85; 0xA0;
   0x1680; 0x2000; 0x2001; 0x2002; 0x2003; 0x2004; 0x2005; 0x2006; 0x2007;
   0x2008; 0x2009; 0x200A; 0x2028; 0x2029; 0x202F; 0x205F; 0x3000]%N.

Definition mem (c : codepoint) (l : list codepoint) : bool :=
  existsb (N.eqb c) l.

Definition isspace (c : codepoint) : bool := mem c whitespace.

(** The first code point of each run of ten decimal digits (general
    category Nd) of Unicode 14.0, the database of CPython 3.11; every run is
    laid out 0..9. *)
Definition decimal_zeros : list codepoint :=
  [0x30; 0x660; 0x6F0; 0x7C0; 0x966; 0x9E6; 0xA66; 0xAE6; 0xB66; 0xBE6;
   0xC66; 0xCE6; 0xD66; 0xDE6; 0xE50; 0xED0; 0xF20; 0x1040; 0x1090; 0x17E0;
   0x1810; 0x1946; 0x19D0; 0x1A80; 0x1A90; 0x1B50; 0x1BB0; 0x1C40; 0x1C50;
   0xA620; 0xA8D0; 0xA900; 0xA9D0; 0xA9F0; 0xAA50; 0xABF0; 0xFF10; 0x104A0;
   0x10D30; 0x11066; 0x110F0; 0x11136; 0x111D0; 0x112F0; 0x11450; 0x114D0;
   0x11650; 0x116C0; 0x11730; 0x118E0; 0x11950; 0x11C50; 0x11D50; 0x11DA0;
   0x16A60; 0x16AC0; 0x16B50; 0x1D7CE; 0x1D7D8; 0x1D7E2; 0x1D7EC; 0x1D7F6;
   0x1E140; 0x1E2F0; 0x1E950; 0x1FBF0]%N.

(** The decimal value of a code point, when it is a decimal digit. *)
Fixpoint decimal_in (zeros : list codepoint) (c : codepoint) : option N :=
  match zeros with
  | [] => None
  | z :: zs =>
      if ((z <=? c) && (c <? z + 10))%N then Some (c - z)%N
      else decimal_in zs c
  end.

Definition decimal (c : codepoint) : option N := decimal_in decimal_zeros c.

Definition isdecimal (c : codepoint) : bool :=
  match decimal c with Some _ => true | None => false end.

(** [s.lstrip()], [s.rstrip()], [s.strip()], generalised over the class of
    code points that is stripped. *)
Fixpoint lstrip_by (sp : codepoint -> bool) (s : str) : str :=
  match s with
  | [] => []
  | c :: s' => if sp c then lstrip_by sp s' else s
  end.

Definition rstrip_by (sp : codepoint -> bool) (s : str) : str :=
  rev (lstrip_by sp (rev s)).

Definition strip_by (sp : codepoint -> bool) (s : str) : str :=
  rstrip_by sp (lstrip_by sp s).

Definition lstrip : str -> str := lstrip_by isspace.
Definition strip : str -> str := strip_by isspace.

(** The longest prefix without whitespace, and what follows it. *)
Fixpoint word (s : str) : str * str :=
  match s with
  | [] => ([], [])
  | c :: s' =>
      if isspace c then ([], s)
      else let (w, rest) := word s' in (c :: w, rest)
  end.

(** [s.split(maxsplit=n)]: split on runs of whitespace, at most [n] times;
    once [n] words are cut, what is left is kept whole, without its leading
    whitespace and with its trailing whitespace. *)
Fixpoint split (maxsplit : nat) (s : str) : list str :=
  match lstrip s with
  | [] => []
  | c :: s' =>
      match maxsplit with
      | O => [c :: s']
      | S n => let (w, rest) := word (c :: s') in w :: split n rest
      end
  end.

(** [s.split(sep)] for a separator of one code point. *)
Fixpoint split_on (sep : codepoint) (s : str) : list str :=
  match s with
  | [] => [[]]
  | c :: s' =>
      if (c =? sep)%N then [] :: split_on sep s'
      else match split_on sep s' with
           | l :: ls => (c :: l) :: ls
           | [] => [[c]]
           end
  end.

(** [sep.join(parts)] for a separator of one code point. *)
Fixpoint join (sep : codepoint) (parts : list str) : str :=
  match parts with
  | [] => []
  | [p] => p
  | p :: ps => p ++ sep :: join sep ps
  end.

End PyStr.

Import PyStr.

(** ** Exceptions and [int()] *)

Module PyInt.

(** [sys.get_int_max_str_digits()]: no limit (interpreters before the limit
    was introduced, or a limit set to 0), or a limit, which the interpreter
    only accepts from 640 up; 4300 by default. *)
Inductive max_str_digits :=
| Unlimited
| Limit (above_640 : nat).

Definition limit_value (m : max_str_digits) : option nat :=
  match m with
  | Unlimited => None
  | Limit k => Some (640 + k)
  end.

Definition default_limit : max_str_digits := Limit 3660.

(** The exceptions the handlers can meet.  [OSError] stands for every
    failure of the operating system (a missing file, a process that cannot
    be spawned) and carries its text. *)
Inductive exn :=
| OSError (strerror : str)
| UnicodeDecodeError (reason : str)
| ValueError_invalid_literal (s : str)
| ValueError_exceeds_limit (limit digits : nat)
| ValueError_unpack (got : nat).

Inductive result (A : Type) :=
| Ok (a : A)
| Raise (e : exn).
Arguments Ok {A} a.
Arguments Raise {A} e.

Definition bind {A B} (m : result A) (f : A -> result B) : result B :=
  match m with
  | Ok a => f a
  | Raise e => Raise e
  end.

Declare Scope py_scope.
Delimit Scope py_scope with py.
Notation "x <- m ;; k" := (bind m (fun x => k))
  (at level 61, m at next level, right associativity) : py_scope.
Notation "' pat <- m ;; k" := (bind m (fun x => match x with pat => k end))
  (at level 61, pat pattern, m at next level, right associativity) : py_scope.

(** Digits with single underscores between them: the value read so far,
    the number of digits read, and whether the previous code point was a
    digit. *)
Fixpoint digits_from (s : str) (acc : N) (count : nat) (after_digit : bool)
  : option (N * nat) :=
  match s with
  | [] => if after_digit then Some (acc, count) else None
  | c :: s' =>
      match decimal c with
      | Some d => digits_from s' (10 * acc + d)%N (S count) true
      | None =>
          if ((c =? 0x5F)%N && after_digit)%bool
          then digits_from s' acc count false
          else None
      end
  end.

(** The whitespace [int()] skips around the literal: that of C below 127,
    that of Unicode from there on. *)
Definition int_isspace (c : codepoint) : bool :=
  if (c <? 127)%N then mem c [0x9; 0xA; 0xB; 0xC; 0xD; 0x20]%N
  else isspace c.

Definition int_strip : str -> str := strip_by int_isspace.

(** [int(s)], base 10. *)
Definition int (m : max_str_digits) (s : str) : result Z :=
  let body := int_strip s in
  let (negative, ds) :=
    match body with
    | c :: ds =>
        if (c =? 0x2D)%N then (true, ds)
        else if (c =? 0x2B)%N then (false, ds)
        else (false, body)
    | [] => (false, body)
    end in
  match digits_from ds 0%N 0 false with
  | None => Raise (ValueError_invalid_literal s)
  | Some (v, count) =>
      match limit_value m with
      | Some l =>
          if Nat.ltb l count then Raise (ValueError_exceeds_limit l count)
          else Ok (if negative then (- Z.of_N v)%Z else Z.of_N v)
      | None => Ok (if negative then (- Z.of_N v)%Z else Z.of_N v)
      end
  end.

End PyInt.

Import PyInt.

(** ** [repr()] of a string and the texts of the exceptions *)

Module PyRepr.

(** The runs of code points from U+007F up that [str.isprintable] rejects
    (Unicode 14.0, the database of CPython 3.11): controls, formats,
    surrogates, private use, unassigned, and separators other than the
    space. *)
Definition nonprintable : list (codepoint * codepoint) :=
  [(0x7F, 0xA0); (0xAD, 0xAD); (0x378, 0x379); (0x380, 0x383); (0x38B, 0x38B);
   (0x38D, 0x38D); (0x3A2, 0x3A2); (0x530, 0x530); (0x557, 0x558);
   (0x58B, 0x58C); (0x590, 0x590); (0x5C8, 0x5CF); (0x5EB, 0x5EE);
   (0x5F5, 0x605); (0x61C, 0x61C); (0x6DD, 0x6DD); (0x70E, 0x70F);
   (0x74B, 0x74C); (0x7B2, 0x7BF); (0x7FB, 0x7FC); (0x82E, 0x82F);
   (0x83F, 0x83F); (0x85C, 0x85D); (0x85F, 0x85F); (0x86B, 0x86F);
   (0x88F, 0x897); (0x8E2, 0x8E2); (0x984, 0x984); (0x98D, 0x98E);
   (0x991, 0x992); (0x9A9, 0x9A9); (0x9B1, 0x9B1); (0x9B3, 0x9B5);
   (0x9BA, 0x9BB); (0x9C5, 0x9C6); (0x9C9, 0x9CA); (0x9CF, 0x9D6);
   (0x9D8, 0x9DB); (0x9DE, 0x9DE); (0x9E4, 0x9E5); (0x9FF, 0xA00);
   (0xA04, 0xA04); (0xA0B, 0xA0E); (0xA11, 0xA12); (0xA29, 0xA29);
   (0xA31, 0xA31); (0xA34, 0xA34); (0xA37, 0xA37); (0xA3A, 0xA3B);
   (0xA3D, 0xA3D); (0xA43, 0xA46); (0xA49, 0xA4A); (0xA4E, 0xA50);
   (0xA52, 0xA58); (0xA5D, 0xA5D); (0xA5F, 0xA65); (0xA77, 0xA80);
   (0xA84, 0xA84); (0xA8E, 0xA8E); (0xA92, 0xA92); (0xAA9, 0xAA9);
   (0xAB1, 0xAB1); (0xAB4, 0xAB4); (0xABA, 0xABB); (0xAC6, 0xAC6);
   (0xACA, 0xACA); (0xACE, 0xACF); (0xAD1, 0xADF); (0xAE4, 0xAE5);
   (0xAF2, 0xAF8); (0xB00, 0xB00); (0xB04, 0xB04); (0xB0D, 0xB0E);
   (0xB11, 0xB12); (0xB29, 0xB29); (0xB31, 0xB31); (0xB34, 0xB34);
   (0xB3A, 0xB3B); (0xB45, 0xB46); (0xB49, 0xB4A); (0xB4E, 0xB54);
   (0xB58, 0xB5B); (0xB5E, 0xB5E); (0xB64, 0xB65); (0xB78, 0xB81);
   (0xB84, 0xB84); (0xB8B, 0xB8D); (0xB91, 0xB91); (0xB96, 0xB98);
   (0xB9B, 0xB9B); (0xB9D, 0xB9D); (0xBA0, 0xBA2); (0xBA5, 0xBA7);
   (0xBAB, 0xBAD); (0xBBA, 0xBBD); (0xBC3, 0xBC5); (0xBC9, 0xBC9);
   (0xBCE, 0xBCF); (0xBD1, 0xBD6); (0xBD8, 0xBE5); (0xBFB, 0xBFF);
   (0xC0D, 0xC0D); (0xC11, 0xC11); (0xC29, 0xC29); (0xC3A, 0xC3B);
   (0xC45, 0xC45); (0xC49, 0xC49); (0xC4E, 0xC54); (0xC57, 0xC57);
   (0xC5B, 0xC5C); (0xC5E, 0xC5F); (0xC64, 0xC65); (0xC70, 0xC76);
   (0xC8D, 0xC8D); (0xC91, 0xC91); (0xCA9, 0xCA9); (0xCB4, 0xCB4);
   (0xCBA, 0xCBB); (0xCC5, 0xCC5); (0xCC9, 0xCC9); (0xCCE, 0xCD4);
   (0xCD7, 0xCDC); (0xCDF, 0xCDF); (0xCE4, 0xCE5); (0xCF0, 0xCF0);
   (0xCF3, 0xCFF); (0xD0D, 0xD0D); (0xD11, 0xD11); (0xD45, 0xD45);
   (0xD49, 0xD49); (0xD50, 0xD53); (0xD64, 0xD65); (0xD80, 0xD80);
   (0xD84, 0xD84); (0xD97, 0xD99); (0xDB2, 0xDB2); (0xDBC, 0xDBC);
   (0xDBE, 0xDBF); (0xDC7, 0xDC9); (0xDCB, 0xDCE); (0xDD5, 0xDD5);
   (0xDD7, 0xDD7); (0xDE0, 0xDE5); (0xDF0, 0xDF1); (0xDF5, 0xE00);
   (0xE3B, 0xE3E); (0xE5C, 0xE80); (0xE83, 0xE83); (0xE85, 0xE85);
   (0xE8B, 0xE8B); (0xEA4, 0xEA4); (0xEA6, 0xEA6); (0xEBE, 0xEBF);
   (0xEC5, 0xEC5); (0xEC7, 0xEC7); (0xECE, 0xECF); (0xEDA, 0xEDB);
   (0xEE0, 0xEFF); (0xF48, 0xF48); (0xF6D, 0xF70); (0xF98, 0xF98);
   (0xFBD, 0xFBD); (0xFCD, 0xFCD); (0xFDB, 0xFFF); (0x10C6, 0x10C6);
   (0x10C8, 0x10CC); (0x10CE, 0x10CF); (0x1249, 0x1249); (0x124E, 0x124F);
   (0x1257, 0x1257); (0x1259, 0x1259); (0x125E, 0x125F); (0x1289, 0x1289);
   (0x128E, 0x128F); (0x12B1, 0x12B1); (0x12B6, 0x12B7); (0x12BF, 0x12BF);
   (0x12C1, 0x12C1); (0x12C6, 0x12C7); (0x12D7, 0x12D7); (0x1311, 0x1311);
   (0x1316, 0x1317); (0x135B, 0x135C); (0x137D, 0x137F); (0x139A, 0x139F);
   (0x13F6, 0x13F7); (0x13FE, 0x13FF); (0x1680, 0x1680); (0x169D, 0x169F);
   (0x16F9, 0x16FF); (0x1716, 0x171E); (0x1737, 0x173F); (0x1754, 0x175F);
   (0x176D, 0x176D); (0x1771, 0x1771); (0x1774, 0x177F); (0x17DE, 0x17DF);
   (0x17EA, 0x17EF); (0x17FA, 0x17FF); (0x180E, 0x180E); (0x181A, 0x181F);
   (0x1879, 0x187F); (0x18AB, 0x18AF); (0x18F6, 0x18FF); (0x191F, 0x191F);
   (0x192C, 0x192F); (0x193C, 0x193F); (0x1941, 0x1943); (0x196E, 0x196F);
   (0x1975, 0x197F); (0x19AC, 0x19AF); (0x19CA, 0x19CF); (0x19DB, 0x19DD);
   (0x1A1C, 0x1A1D); (0x1A5F, 0x1A5F); (0x1A7D, 0x1A7E); (0x1A8A, 0x1A8F);
   (0x1A9A, 0x1A9F); (0x1AAE, 0x1AAF); (0x1ACF, 0x1AFF); (0x1B4D, 0x1B4F);
   (0x1B7F, 0x1B7F); (0x1BF4, 0x1BFB); (0x1C38, 0x1C3A); (0x1C4A, 0x1C4C);
   (0x1C89, 0x1C8F); (0x1CBB, 0x1CBC); (0x1CC8, 0x1CCF); (0x1CFB, 0x1CFF);
   (0x1F16, 0x1F17); (0x1F1E, 0x1F1F); (0x1F46, 0x1F47); (0x1F4E, 0x1F4F);
   (0x1F58, 0x1F58); (0x1F5A, 0x1F5A); (0x1F5C, 0x1F5C); (0x1F5E, 0x1F5E);
   (0x1F7E, 0x1F7F); (0x1FB5, 0x1FB5); (0x1FC5, 0x1FC5); (0x1FD4, 0x1FD5);
   (0x1FDC, 0x1FDC); (0x1FF0, 0x1FF1); (0x1FF5, 0x1FF5); (0x1FFF, 0x200F);
   (0x2028, 0x202F); (0x205F, 0x206F); (0x2072, 0x2073); (0x208F, 0x208F);
   (0x209D, 0x209F); (0x20C1, 0x20CF); (0x20F1, 0x20FF); (0x218C, 0x218F);
   (0x2427, 0x243F); (0x244B, 0x245F); (0x2B74, 0x2B75); (0x2B96, 0x2B96);
   (0x2CF4, 0x2CF8); (0x2D26, 0x2D26); (0x2D28, 0x2D2C); (0x2D2E, 0x2D2F);
   (0x2D68, 0x2D6E); (0x2D71, 0x2D7E); (0x2D97, 0x2D9F); (0x2DA7, 0x2DA7);
   (0x2DAF, 0x2DAF); (0x2DB7, 0x2DB7); (0x2DBF, 0x2DBF); (0x2DC7, 0x2DC7);
   (0x2DCF, 0x2DCF); (0x2DD7, 0x2DD7); (0x2DDF, 0x2DDF); (0x2E5E, 0x2E7F);
   (0x2E9A, 0x2E9A); (0x2EF4, 0x2EFF); (0x2FD6, 0x2FEF); (0x2FFC, 0x3000);
   (0x3040, 0x3040); (0x3097, 0x3098); (0x3100, 0x3104); (0x3130, 0x3130);
   (0x318F, 0x318F); (0x31E4, 0x31EF); (0x321F, 0x321F); (0xA48D, 0xA48F);
   (0xA4C7, 0xA4CF); (0xA62C, 0xA63F); (0xA6F8, 0xA6FF); (0xA7CB, 0xA7CF);
   (0xA7D2, 0xA7D2); (0xA7D4, 0xA7D4); (0xA7DA, 0xA7F1); (0xA82D, 0xA82F);
   (0xA83A, 0xA83F); (0xA878, 0xA87F); (0xA8C6, 0xA8CD); (0xA8DA, 0xA8DF);
   (0xA954, 0xA95E); (0xA97D, 0xA97F); (0xA9CE, 0xA9CE); (0xA9DA, 0xA9DD);
   (0xA9FF, 0xA9FF); (0xAA37, 0xAA3F); (0xAA4E, 0xAA4F); (0xAA5A, 0xAA5B);
   (0xAAC3, 0xAADA); (0xAAF7, 0xAB00); (0xAB07, 0xAB08); (0xAB0F, 0xAB10);
   (0xAB17, 0xAB1F); (0xAB27, 0xAB27); (0xAB2F, 0xAB2F); (0xAB6C, 0xAB6F);
   (0xABEE, 0xABEF); (0xABFA, 0xABFF); (0xD7A4, 0xD7AF); (0xD7C7, 0xD7CA);
   (0xD7FC, 0xF8FF); (0xFA6E, 0xFA6F); (0xFADA, 0xFAFF); (0xFB07, 0xFB12);
   (0xFB18, 0xFB1C); (0xFB37, 0xFB37); (0xFB3D, 0xFB3D); (0xFB3F, 0xFB3F);
   (0xFB42, 0xFB42); (0xFB45, 0xFB45); (0xFBC3, 0xFBD2); (0xFD90, 0xFD91);
   (0xFDC8, 0xFDCE); (0xFDD0, 0xFDEF); (0xFE1A, 0xFE1F); (0xFE53, 0xFE53);
   (0xFE67, 0xFE67); (0xFE6C, 0xFE6F); (0xFE75, 0xFE75); (0xFEFD, 0xFF00);
   (0xFFBF, 0xFFC1); (0xFFC8, 0xFFC9); (0xFFD0, 0xFFD1); (0xFFD8, 0xFFD9);
   (0xFFDD, 0xFFDF); (0xFFE7, 0xFFE7); (0xFFEF, 0xFFFB); (0xFFFE, 0xFFFF);
   (0x1000C, 0x1000C); (0x10027, 0x10027); (0x1003B, 0x1003B);
   (0x1003E, 0x1003E); (0x1004E, 0x1004F); (0x1005E, 0x1007F);
   (0x100FB, 0x100FF); (0x10103, 0x10106); (0x10134, 0x10136);
   (0x1018F, 0x1018F); (0x1019D, 0x1019F); (0x101A1, 0x101CF);
   (0x101FE, 0x1027F); (0x1029D, 0x1029F); (0x102D1, 0x102DF);
   (0x102FC, 0x102FF); (0x10324, 0x1032C); (0x1034B, 0x1034F);
   (0x1037B, 0x1037F); (0x1039E, 0x1039E); (0x103C4, 0x103C7);
   (0x103D6, 0x103FF); (0x1049E, 0x1049F); (0x104AA, 0x104AF);
   (0x104D4, 0x104D7); (0x104FC, 0x104FF); (0x10528, 0x1052F);
   (0x10564, 0x1056E); (0x1057B, 0x1057B); (0x1058B, 0x1058B);
   (0x10593, 0x10593); (0x10596, 0x10596); (0x105A2, 0x105A2);
   (0x105B2, 0x105B2); (0x105BA, 0x105BA); (0x105BD, 0x105FF);
   (0x10737, 0x1073F); (0x10756, 0x1075F); (0x10768, 0x1077F);
   (0x10786, 0x10786); (0x107B1, 0x107B1); (0x107BB, 0x107FF);
   (0x10806, 0x10807); (0x10809, 0x10809); (0x10836, 0x10836);
   (0x10839, 0x1083B); (0x1083D, 0x1083E); (0x10856, 0x10856);
   (0x1089F, 0x108A6); (0x108B0, 0x108DF); (0x108F3, 0x108F3);
   (0x108F6, 0x108FA); (0x1091C, 0x1091E); (0x1093A, 0x1093E);
   (0x10940, 0x1097F); (0x109B8, 0x109BB); (0x109D0, 0x109D1);
   (0x10A04, 0x10A04); (0x10A07, 0x10A0B); (0x10A14, 0x10A14);
   (0x10A18, 0x10A18); (0x10A36, 0x10A37); (0x10A3B, 0x10A3E);
   (0x10A49, 0x10A4F); (0x10A59, 0x10A5F); (0x10AA0, 0x10ABF);
   (0x10AE7, 0x10AEA); (0x10AF7, 0x10AFF); (0x10B36, 0x10B38);
   (0x10B56, 0x10B57); (0x10B73, 0x10B77); (0x10B92, 0x10B98);
   (0x10B9D, 0x10BA8); (0x10BB0, 0x10BFF); (0x10C49, 0x10C7F);
   (0x10CB3, 0x10CBF); (0x10CF3, 0x10CF9); (0x10D28, 0x10D2F);
   (0x10D3A, 0x10E5F); (0x10E7F, 0x10E7F); (0x10EAA, 0x10EAA);
   (0x10EAE, 0x10EAF); (0x10EB2, 0x10EFF); (0x10F28, 0x10F2F);
   (0x10F5A, 0x10F6F); (0x10F8A, 0x10FAF); (0x10FCC, 0x10FDF);
   (0x10FF7, 0x10FFF); (0x1104E, 0x11051); (0x11076, 0x1107E);
   (0x110BD, 0x110BD); (0x110C3, 0x110CF); (0x110E9, 0x110EF);
   (0x110FA, 0x110FF); (0x11135, 0x11135); (0x11148, 0x1114F);
   (0x11177, 0x1117F); (0x111E0, 0x111E0); (0x111F5, 0x111FF);
   (0x11212, 0x11212); (0x1123F, 0x1127F); (0x11287, 0x11287);
   (0x11289, 0x11289); (0x1128E, 0x1128E); (0x1129E, 0x1129E);
   (0x112AA, 0x112AF); (0x112EB, 0x112EF); (0x112FA, 0x112FF);
   (0x11304, 0x11304); (0x1130D, 0x1130E); (0x11311, 0x11312);
   (0x11329, 0x11329); (0x11331, 0x11331); (0x11334, 0x11334);
   (0x1133A, 0x1133A); (0x11345, 0x11346); (0x11349, 0x1134A);
   (0x1134E, 0x1134F); (0x11351, 0x11356); (0x11358, 0x1135C);
   (0x11364, 0x11365); (0x1136D, 0x1136F); (0x11375, 0x113FF);
   (0x1145C, 0x1145C); (0x11462, 0x1147F); (0x114C8, 0x114CF);
   (0x114DA, 0x1157F); (0x115B6, 0x115B7); (0x115DE, 0x115FF);
   (0x11645, 0x1164F); (0x1165A, 0x1165F); (0x1166D, 0x1167F);
   (0x116BA, 0x116BF); (0x116CA, 0x116FF); (0x1171B, 0x1171C);
   (0x1172C, 0x1172F); (0x11747, 0x117FF); (0x1183C, 0x1189F);
   (0x118F3, 0x118FE); (0x11907, 0x11908); (0x1190A, 0x1190B);
   (0x11914, 0x11914); (0x11917, 0x11917); (0x11936, 0x11936);
   (0x11939, 0x1193A); (0x11947, 0x1194F); (0x1195A, 0x1199F);
   (0x119A8, 0x119A9); (0x119D8, 0x119D9); (0x119E5, 0x119FF);
   (0x11A48, 0x11A4F); (0x11AA3, 0x11AAF); (0x11AF9, 0x11BFF);
   (0x11C09, 0x11C09); (0x11C37, 0x11C37); (0x11C46, 0x11C4F);
   (0x11C6D, 0x11C6F); (0x11C90, 0x11C91); (0x11CA8, 0x11CA8);
   (0x11CB7, 0x11CFF); (0x11D07, 0x11D07); (0x11D0A, 0x11D0A);
   (0x11D37, 0x11D39); (0x11D3B, 0x11D3B); (0x11D3E, 0x11D3E);
   (0x11D48, 0x11D4F); (0x11D5A, 0x11D5F); (0x11D66, 0x11D66);
   (0x11D69, 0x11D69); (0x11D8F, 0x11D8F); (0x11D92, 0x11D92);
   (0x11D99, 0x11D9F); (0x11DAA, 0x11EDF); (0x11EF9, 0x11FAF);
   (0x11FB1, 0x11FBF); (0x11FF2, 0x11FFE); (0x1239A, 0x123FF);
   (0x1246F, 0x1246F); (0x12475, 0x1247F); (0x12544, 0x12F8F);
   (0x12FF3, 0x12FFF); (0x1342F, 0x143FF); (0x14647, 0x167FF);
   (0x16A39, 0x16A3F); (0x16A5F, 0x16A5F); (0x16A6A, 0x16A6D);
   (0x16ABF, 0x16ABF); (0x16ACA, 0x16ACF); (0x16AEE, 0x16AEF);
   (0x16AF6, 0x16AFF); (0x16B46, 0x16B4F); (0x16B5A, 0x16B5A);
   (0x16B62, 0x16B62); (0x16B78, 0x16B7C); (0x16B90, 0x16E3F);
   (0x16E9B, 0x16EFF); (0x16F4B, 0x16F4E); (0x16F88, 0x16F8E);
   (0x16FA0, 0x16FDF); (0x16FE5, 0x16FEF); (0x16FF2, 0x16FFF);
   (0x187F8, 0x187FF); (0x18CD6, 0x18CFF); (0x18D09, 0x1AFEF);
   (0x1AFF4, 0x1AFF4); (0x1AFFC, 0x1AFFC); (0x1AFFF, 0x1AFFF);
   (0x1B123, 0x1B14F); (0x1B153, 0x1B163); (0x1B168, 0x1B16F);
   (0x1B2FC, 0x1BBFF); (0x1BC6B, 0x1BC6F); (0x1BC7D, 0x1BC7F);
   (0x1BC89, 0x1BC8F); (0x1BC9A, 0x1BC9B); (0x1BCA0, 0x1CEFF);
   (0x1CF2E, 0x1CF2F); (0x1CF47, 0x1CF4F); (0x1CFC4, 0x1CFFF);
   (0x1D0F6, 0x1D0FF); (0x1D127, 0x1D128); (0x1D173, 0x1D17A);
   (0x1D1EB, 0x1D1FF); (0x1D246, 0x1D2DF); (0x1D2F4, 0x1D2FF);
   (0x1D357, 0x1D35F); (0x1D379, 0x1D3FF); (0x1D455, 0x1D455);
   (0x1D49D, 0x1D49D); (0x1D4A0, 0x1D4A1); (0x1D4A3, 0x1D4A4);
   (0x1D4A7, 0x1D4A8); (0x1D4AD, 0x1D4AD); (0x1D4BA, 0x1D4BA);
   (0x1D4BC, 0x1D4BC); (0x1D4C4, 0x1D4C4); (0x1D506, 0x1D506);
   (0x1D50B, 0x1D50C); (0x1D515, 0x1D515); (0x1D51D, 0x1D51D);
   (0x1D53A, 0x1D53A); (0x1D53F, 0x1D53F); (0x1D545, 0x1D545);
   (0x1D547, 0x1D549); (0x1D551, 0x1D551); (0x1D6A6, 0x1D6A7);
   (0x1D7CC, 0x1D7CD); (0x1DA8C, 0x1DA9A); (0x1DAA0, 0x1DAA0);
   (0x1DAB0, 0x1DEFF); (0x1DF1F, 0x1DFFF); (0x1E007, 0x1E007);
   (0x1E019, 0x1E01A); (0x1E022, 0x1E022); (0x1E025, 0x1E025);
   (0x1E02B, 0x1E0FF); (0x1E12D, 0x1E12F); (0x1E13E, 0x1E13F);
   (0x1E14A, 0x1E14D); (0x1E150, 0x1E28F); (0x1E2AF, 0x1E2BF);
   (0x1E2FA, 0x1E2FE); (0x1E300, 0x1E7DF); (0x1E7E7, 0x1E7E7);
   (0x1E7EC, 0x1E7EC); (0x1E7EF, 0x1E7EF); (0x1E7FF, 0x1E7FF);
   (0x1E8C5, 0x1E8C6); (0x1E8D7, 0x1E8FF); (0x1E94C, 0x1E94F);
   (0x1E95A, 0x1E95D); (0x1E960, 0x1EC70); (0x1ECB5, 0x1ED00);
   (0x1ED3E, 0x1EDFF); (0x1EE04, 0x1EE04); (0x1EE20, 0x1EE20);
   (0x1EE23, 0x1EE23); (0x1EE25, 0x1EE26); (0x1EE28, 0x1EE28);
   (0x1EE33, 0x1EE33); (0x1EE38, 0x1EE38); (0x1EE3A, 0x1EE3A);
   (0x1EE3C, 0x1EE41); (0x1EE43, 0x1EE46); (0x1EE48, 0x1EE48);
   (0x1EE4A, 0x1EE4A); (0x1EE4C, 0x1EE4C); (0x1EE50, 0x1EE50);
   (0x1EE53, 0x1EE53); (0x1EE55, 0x1EE56); (0x1EE58, 0x1EE58);
   (0x1EE5A, 0x1EE5A); (0x1EE5C, 0x1EE5C); (0x1EE5E, 0x1EE5E);
   (0x1EE60, 0x1EE60); (0x1EE63, 0x1EE63); (0x1EE65, 0x1EE66);
   (0x1EE6B, 0x1EE6B); (0x1EE73, 0x1EE73); (0x1EE78, 0x1EE78);
   (0x1EE7D, 0x1EE7D); (0x1EE7F, 0x1EE7F); (0x1EE8A, 0x1EE8A);
   (0x1EE9C, 0x1EEA0); (0x1EEA4, 0x1EEA4); (0x1EEAA, 0x1EEAA);
   (0x1EEBC, 0x1EEEF); (0x1EEF2, 0x1EFFF); (0x1F02C, 0x1F02F);
   (0x1F094, 0x1F09F); (0x1F0AF, 0x1F0B0); (0x1F0C0, 0x1F0C0);
   (0x1F0D0, 0x1F0D0); (0x1F0F6, 0x1F0FF); (0x1F1AE, 0x1F1E5);
   (0x1F203, 0x1F20F); (0x1F23C, 0x1F23F); (0x1F249, 0x1F24F);
   (0x1F252, 0x1F25F); (0x1F266, 0x1F2FF); (0x1F6D8, 0x1F6DC);
   (0x1F6ED, 0x1F6EF); (0x1F6FD, 0x1F6FF); (0x1F774, 0x1F77F);
   (0x1F7D9, 0x1F7DF); (0x1F7EC, 0x1F7EF); (0x1F7F1, 0x1F7FF);
   (0x1F80C, 0x1F80F); (0x1F848, 0x1F84F); (0x1F85A, 0x1F85F);
   (0x1F888, 0x1F88F); (0x1F8AE, 0x1F8AF); (0x1F8B2, 0x1F8FF);
   (0x1FA54, 0x1FA5F); (0x1FA6E, 0x1FA6F); (0x1FA75, 0x1FA77);
   (0x1FA7D, 0x1FA7F); (0x1FA87, 0x1FA8F); (0x1FAAD, 0x1FAAF);
   (0x1FABB, 0x1FABF); (0x1FAC6, 0x1FACF); (0x1FADA, 0x1FADF);
   (0x1FAE8, 0x1FAEF); (0x1FAF7, 0x1FAFF); (0x1FB93, 0x1FB93);
   (0x1FBCB, 0x1FBEF); (0x1FBFA, 0x1FFFF); (0x2A6E0, 0x2A6FF);
   (0x2B739, 0x2B73F); (0x2B81E, 0x2B81F); (0x2CEA2, 0x2CEAF);
   (0x2EBE1, 0x2F7FF); (0x2FA1E, 0x2FFFF); (0x3134B, 0xE00FF);
   (0xE01F0, 0x10FFFF)]%N.

Definition isprintable (c : codepoint) : bool :=
  if (c <? 0x20)%N then false
  else if (c <? 0x7F)%N then true
  else negb (existsb (fun r => (fst r <=? c)%N && (c <=? snd r)%N)
                     nonprintable).

Definition hex_digit (n : N) : codepoint :=
  if (n <? 10)%N then (48 + n)%N else (87 + n)%N.

(** [n] in hexadecimal, lower case, on [width] digits. *)
Fixpoint hex (width : nat) (n : N) : str :=
  match width with
  | O => []
  | S k => hex k (n / 16)%N ++ [hex_digit (n mod 16)%N]
  end.

(** One code point of a string inside [repr()], between quotes [quote]. *)
Definition repr_char (quote c : codepoint) : str :=
  if ((c =? quote) || (c =? 0x5C))%N then [0x5C%N; c]
  else if (c =? 0x9)%N then [0x5C; 0x74]%N
  else if (c =? 0xA)%N then [0x5C; 0x6E]%N
  else if (c =? 0xD)%N then [0x5C; 0x72]%N
  else if ((c <? 0x20) || (c =? 0x7F))%N then [0x5C; 0x78]%N ++ hex 2 c
  else if (c <? 0x7F)%N then [c]
  else if isprintable c then [c]
  else if (c <=? 0xFF)%N then [0x5C; 0x78]%N ++ hex 2 c
  else if (c <=? 0xFFFF)%N then [0x5C; 0x75]%N ++ hex 4 c
  else [0x5C; 0x55]%N ++ hex 8 c.

(** [repr(s)]: between single quotes, unless [s] holds a single quote and
    no double quote. *)
Definition repr (s : str) : str :=
  let quote :=
    if mem 0x27%N s && negb (mem 0x22%N s) then 0x22%N else 0x27%N in
  quote :: flat_map (repr_char quote) s ++ [quote].

(** The text of the [ValueError] of [int(s)] for a string that is no
    literal: at most 200 code points of [repr(s)] are shown. *)
Definition invalid_literal_text (s : str) : str :=
  lit "invalid literal for int() with base 10: " ++ firstn 200 (repr s).

(** A text that [encode('latin-1', 'strict')] accepts. *)
Definition latin1 (s : str) : bool := forallb (fun c => (c <=? 0xFF)%N) s.

(** Whether [str(e)] can be encoded in Latin-1.  An [OSError] and a
    [UnicodeDecodeError] carry their text; the text of the other two
    [ValueError]s is in ASCII, digits and all. *)
Definition text_is_latin1 (e : exn) : bool :=
  match e with
  | OSError strerror => latin1 strerror
  | UnicodeDecodeError reason => latin1 reason
  | ValueError_invalid_literal s => latin1 (invalid_literal_text s)
  | ValueError_exceeds_limit _ _ => true
  | ValueError_unpack _ => true
  end.

End PyRepr.

Import PyRepr.

(** ** The matcher of [re], for the constructs the dashboard's pattern uses *)

Module Re.

(** A pattern: a literal code point, a class of code points ([\d], [.],
    [[...]]), a class repeated once or more ([X+], greedy, or [X+?], lazy),
    a capturing group, a sequence.  Groups are not nested in one another, so
    they are numbered in the order they close. *)
Inductive regex :=
| Eps
| Chr (c : codepoint)
| Cls (p : codepoint -> bool)
| Plus (greedy : bool) (p : codepoint -> bool)
| Grp (r : regex)
| Seq (r1 r2 : regex).

(** A state of the matcher: the text still to match and the groups closed
    so far. *)
Definition mstate : Type := str * list str.

(** [X+] followed by the continuation [k]: a greedy repeat takes as many
    code points as it can and gives them back one by one while [k] fails; a
    lazy repeat takes one and takes more one by one while [k] fails. *)
Fixpoint plus_backtrack {T} (greedy : bool) (p : codepoint -> bool) (s : str)
  (k : str -> option T) : option T :=
  match s with
  | [] => None
  | c :: s' =>
      if p c then
        if greedy then
          match plus_backtrack greedy p s' k with
          | Some t => Some t
          | None => k s'
          end
        else
          match k s' with
          | Some t => Some t
          | None => plus_backtrack greedy p s' k
          end
      else None
  end.

(** The backtracking matcher: [r] at the start of [s], then the
    continuation [k] on what is left and on the groups. *)
Fixpoint backtrack {T} (r : regex) (s : str) (groups : list str)
  (k : str -> list str -> option T) : option T :=
  match r with
  | Eps => k s groups
  | Chr c =>
      match s with
      | x :: s' => if (x =? c)%N then k s' groups else None
      | [] => None
      end
  | Cls p =>
      match s with
      | x :: s' => if p x then k s' groups else None
      | [] => None
      end
  | Plus greedy p => plus_backtrack greedy p s (fun s' => k s' groups)
  | Grp r1 =>
      backtrack r1 s groups (fun s' groups' =>
        k s' (groups' ++ [firstn (List.length s - List.length s') s]))
  | Seq r1 r2 =>
      backtrack r1 s groups (fun s' groups' => backtrack r2 s' groups' k)
  end.

(** [re.match]: the text after the match and the groups. *)
Definition match_at (r : regex) (s : str) : option mstate :=
  backtrack r s [] (fun rest groups => Some (rest, groups)).

(** [re.findall] for a pattern that has groups and matches no empty text:
    the groups of the leftmost match, then of the leftmost match after it,
    and so on.  The scan moves one code point at a time; [covered] counts
    the code points ahead that the last match consumed, where no match may
    start. *)
Fixpoint findall_from (r : regex) (covered : nat) (s : str)
  : list (list str) :=
  match s with
  | [] => []
  | _ :: s' =>
      match covered with
      | S k => findall_from r k s'
      | O =>
          match match_at r s with
          | Some (rest, groups) =>
              groups :: findall_from r (List.length s - List.length rest - 1) s'
          | None => findall_from r 0 s'
          end
      end
  end.

Definition findall (r : regex) (s : str) : list (list str) :=
  findall_from r 0 s.

(** [.]: any code point but a line feed. *)
Definition dot (c : codepoint) : bool := negb (c =? LF)%N.

(** [\d]: a decimal digit of any script. *)
Definition digit : codepoint -> bool := isdecimal.

(** [[...]]: one of the listed code points. *)
Definition one_of (l : list codepoint) (c : codepoint) : bool := mem c l.

(** A literal text. *)
Fixpoint text (s : str) (k : regex) : regex :=
  match s with
  | [] => k
  | c :: s' => Seq (Chr c) (text s' k)
  end.

End Re.

Import Re.

(** ** The handlers of [DashboardHandler] *)

Module Dashboard.

Local Open Scope py_scope.

(** What [subprocess.run(..., capture_output=True, text=True)] returns. *)
Record completed_process := { returncode : Z; stdout : str }.

(** What a request reads from outside the process.  One request sees one
    state of the file system and of the repositories, so each query is a
    function of its arguments.  Writing the response to the socket is taken
    to succeed. *)
Record world := {
  int_max_str_digits : max_str_digits;
  (** [open('MODULE_STATUS.md', 'r')] followed by [f.read()] *)
  read_module_status : result str;
  (** [os.getcwd()] *)
  getcwd : result str;
  (** [os.path.exists(path)] *)
  path_exists : str -> bool;
  (** [subprocess.run(argv, cwd=dir)]: raises when the process cannot be
      spawned, and when its output cannot be decoded as text *)
  subprocess_run : list str -> str -> result completed_process;
  (** [datetime.now().isoformat()] *)
  now_isoformat : str
}.

Record module_info := {
  name : str;
  status : str;
  status_text : str;
  progress : Z;
  commits : Z;
  lastActive : str
}.

(** A [dict] with [str] keys: the items in insertion order.  Assigning to a
    key that is present replaces its value where it stands. *)
Definition dict (V : Type) : Type := list (str * V).

Fixpoint dict_set {V} (k : str) (v : V) (d : dict V) : dict V :=
  match d with
  | [] => [(k, v)]
  | (k', v') :: d' =>
      if PyStr.eqb k k' then (k, v) :: d' else (k', v') :: dict_set k v d'
  end.

Fixpoint dict_get {V} (k : str) (d : dict V) : option V :=
  match d with
  | [] => None
  | (k', v') :: d' => if PyStr.eqb k k' then Some v' else dict_get k d'
  end.

Definition keys {V} (d : dict V) : list str := map fst d.

Record commit_entry := { hash : str; message : str; time : str }.

Inductive body :=
| StatusJson (modules : dict module_info) (updated : str)
| GitJson (commit_list : list commit_entry).

(** What the handler sends: [send_response(200)] with a JSON or HTML body,
    or [send_error(code, str(e))]; [Error] keeps the exception whose text is
    sent.  [Unencodable] is [send_error(code, str(e))] with a text that has
    a code point above U+00FF: the status line is encoded in Latin-1,
    strictly, so for a request that names its HTTP version the call raises
    [UnicodeEncodeError] out of the [except] clause and nothing is written
    to the client; a request without a version, which gets no status line,
    gets the error page alone. *)
Inductive response :=
| Json (b : body)
| Html
| Error (code : N) (detail : option exn)
| Unencodable (code : N) (e : exn).

(** The character class of the pattern in [serve_status], code point by
    code point as the source file holds it: six groups, U+F8FF U+00FC U+00EE
    U+00A5, U+F8FF U+00FC U+00FC U+00B0, U+F8FF U+00FC U+00FC U+00A2,
    U+F8FF U+00FC U+00EE U+00B5, U+201A U+00F6 U+2020 U+00D4 U+220F U+00E8
    and U+201A U+00F9 U+00E5, which are the UTF-8 bytes of six glyphs shown
    in Mac OS Roman.  A class matches one code point, so each of the
    fifteen distinct code points is a member on its own. *)
Definition status_glyphs : list codepoint :=
  [0xF8FF; 0xFC; 0xEE; 0xA5; 0xF8FF; 0xFC; 0xFC; 0xB0; 0xF8FF; 0xFC; 0xFC;
   0xA2; 0xF8FF; 0xFC; 0xEE; 0xB5; 0x201A; 0xF6; 0x2020; 0xD4; 0x220F; 0xE8;
   0x201A; 0xF9; 0xE5]%N.

(** [\| (\d+) \| (.+?) \| ([...]) (.+?) \| (\d+)%], over a class of glyphs. *)
Definition pattern_over (glyphs : list codepoint) : regex :=
  text (lit "| ") (Seq (Grp (Plus true digit))
  (text (lit " | ") (Seq (Grp (Plus false dot))
  (text (lit " | ") (Seq (Grp (Cls (one_of glyphs)))
  (text (lit " ") (Seq (Grp (Plus false dot))
  (text (lit " | ") (Seq (Grp (Plus true digit))
  (text (lit "%") Eps)))))))))).

Definition pattern : regex := pattern_over status_glyphs.

Definition module_dir (module_num : str) : str :=
  lit "../dawg-module-" ++ module_num.

(** [get_module_commits]: [None] inside [attempt] is the path that leaves
    the [if] without a [return]. *)
Definition get_module_commits (w : world) (module_num : str) : Z :=
  let attempt : result (option Z) :=
    if path_exists w (module_dir module_num) then
      result <- subprocess_run w
                  [lit "git"; lit "rev-list"; lit "--count"; lit "HEAD"]
                  (module_dir module_num) ;;
      if (returncode result =? 0)%Z then
        n <- int (int_max_str_digits w) (strip (stdout result)) ;;
        Ok (Some n)
      else Ok (Some 0%Z)
    else Ok None in
  match attempt with
  | Ok (Some n) => n
  | Ok None => 0%Z
  | Raise _ => 0%Z
  end.

Definition get_last_activity (w : world) (module_num : str) : str :=
  let attempt : result (option str) :=
    if path_exists w (module_dir module_num) then
      result <- subprocess_run w
                  [lit "git"; lit "log"; lit "-1"; lit "--format=%ar"]
                  (module_dir module_num) ;;
      if (returncode result =? 0)%Z then Ok (Some (strip (stdout result)))
      else Ok (Some (lit "Never"))
    else Ok None in
  match attempt with
  | Ok (Some s) => s
  | Ok None => lit "Never"
  | Raise _ => lit "Never"
  end.

(** [module_num, name, status, status_text, progress = match] *)
Definition unpack5 (m : list str) : result (str * str * str * str * str) :=
  match m with
  | [a; b; c; d; e] => Ok (a, b, c, d, e)
  | _ => Raise (ValueError_unpack (List.length m))
  end.

(** The body of the loop over the matches: the key and the value it
    assigns. *)
Definition module_entry (w : world) (m : list str)
  : result (str * module_info) :=
  '(module_num, name_, status_, status_text_, progress_) <- unpack5 m ;;
  p <- int (int_max_str_digits w) progress_ ;;
  Ok (module_num,
      {| name := strip name_;
         status := status_;
         status_text := strip status_text_;
         progress := p;
         commits := get_module_commits w module_num;
         lastActive := get_last_activity w module_num |}).

Fixpoint fill_modules (w : world) (matches : list (list str))
  (modules : dict module_info) : result (dict module_info) :=
  match matches with
  | [] => Ok modules
  | m :: rest =>
      kv <- module_entry w m ;;
      fill_modules w rest (dict_set (fst kv) (snd kv) modules)
  end.

(** The table scan of [serve_status]: from the text of the document to the
    [modules] dictionary. *)
Definition parse_modules (w : world) (content : str)
  : result (dict module_info) :=
  fill_modules w (findall pattern content) [].

Definition serve_status (w : world) : response :=
  let attempt :=
    content <- read_module_status w ;;
    modules <- parse_modules w content ;;
    Ok (StatusJson modules (now_isoformat w)) in
  match attempt with
  | Ok b => Json b
  | Raise e => Error 500 (Some e)
  end.

Definition git_log_argv : list str :=
  [lit "git"; lit "log"; lit "--all"; lit "--oneline"; lit "--graph";
   lit "--decorate"; lit "-15"].

(** One turn of the loop over the lines of the log. *)
Definition append_commit (commit_list : list commit_entry) (line : str)
  : list commit_entry :=
  match strip line with
  | [] => commit_list
  | _ :: _ =>
      let parts := split 2 line in
      if (2 <=? List.length parts)%nat then
        commit_list ++
        [{| hash := if (1 <? List.length parts)%nat
                    then firstn 7 (nth 1 parts []) else [];
            message := if (2 <? List.length parts)%nat
                       then nth 2 parts [] else line;
            time := [] |}]
      else commit_list
  end.

Definition parse_git_log (out : str) : list commit_entry :=
  fold_left append_commit (split_on LF out) [].

(** [self.send_error(code, str(e))] in the [except] clause of
    [serve_git_activity], where the text of the exception can hold the path
    of the working directory: the reason phrase goes into the status line,
    which is encoded in Latin-1. *)
Definition send_error (code : N) (e : exn) : response :=
  if text_is_latin1 e then Error code (Some e) else Unencodable code e.

Definition serve_git_activity (w : world) : response :=
  let attempt :=
    cwd <- getcwd w ;;
    result <- subprocess_run w git_log_argv cwd ;;
    Ok (GitJson (parse_git_log (stdout result))) in
  match attempt with
  | Ok b => Json b
  | Raise e => send_error 500 e
  end.

Definition serve_dashboard (w : world) : response := Html.

Definition do_GET (w : world) (path : str) : response :=
  if PyStr.eqb path (lit "/") then serve_dashboard w
  else if PyStr.eqb path (lit "/api/status") then serve_status w
  else if PyStr.eqb path (lit "/api/git") then serve_git_activity w
  else Error 404 None.

End Dashboard.

Import Dashboard.

(** ** What a match is, read off the pattern *)

Module ReSpec.

(** Where [X+] can stop, as the text left after it, in the order the
    backtracking matcher tries them: longest first when greedy, shortest
    first when lazy. *)
Fixpoint plus_rests (greedy : bool) (p : codepoint -> bool) (s : str)
  : list str :=
  match s with
  | [] => []
  | c :: s' =>
      if p c then
        if greedy then plus_rests greedy p s' ++ [s']
        else s' :: plus_rests greedy p s'
      else []
  end.

(** All the ways [r] matches at the start of [s], in the order the
    backtracking matcher comes to them. *)
Fixpoint alternatives (r : regex) (s : str) (groups : list str)
  : list mstate :=
  match r with
  | Eps => [(s, groups)]
  | Chr c =>
      match s with
      | x :: s' => if (x =? c)%N then [(s', groups)] else []
      | [] => []
      end
  | Cls p =>
      match s with
      | x :: s' => if p x then [(s', groups)] else []
      | [] => []
      end
  | Plus greedy p => map (fun s' => (s', groups)) (plus_rests greedy p s)
  | Grp r1 =>
      map (fun st : mstate =>
             (fst st,
              snd st ++ [firstn (List.length s - List.length (fst st)) s]))
          (alternatives r1 s groups)
  | Seq r1 r2 =>
      flat_map (fun st : mstate => alternatives r2 (fst st) (snd st))
               (alternatives r1 s groups)
  end.

(** The first element of a list on which [f] succeeds. *)
Fixpoint first_some {A T} (f : A -> option T) (l : list A) : option T :=
  match l with
  | [] => None
  | x :: l' =>
      match f x with
      | Some t => Some t
      | None => first_some f l'
      end
  end.

(** [derives r w gs]: the pattern [r] can match exactly the text [w],
    closing the groups [gs]. *)
Inductive derives : regex -> str -> list str -> Prop :=
| D_Eps : derives Eps [] []
| D_Chr c : derives (Chr c) [c] []
| D_Cls (p : codepoint -> bool) c : p c = true -> derives (Cls p) [c] []
| D_Plus greedy (p : codepoint -> bool) w :
    w <> [] -> forallb p w = true -> derives (Plus greedy p) w []
| D_Grp r w gs : derives r w gs -> derives (Grp r) w (gs ++ [w])
| D_Seq r1 r2 w1 w2 gs1 gs2 :
    derives r1 w1 gs1 -> derives r2 w2 gs2 ->
    derives (Seq r1 r2) (w1 ++ w2) (gs1 ++ gs2).

(** No part of the pattern accepts a line feed. *)
Fixpoint single_line (r : regex) : bool :=
  match r with
  | Eps => true
  | Chr c => negb (c =? LF)%N
  | Cls p => negb (p LF)
  | Plus _ p => negb (p LF)
  | Grp r1 => single_line r1
  | Seq r1 r2 => single_line r1 && single_line r2
  end.

(** Every match of the pattern takes at least one code point. *)
Fixpoint consuming (r : regex) : bool :=
  match r with
  | Eps => false
  | Chr _ | Cls _ | Plus _ _ => true
  | Grp r1 => consuming r1
  | Seq r1 r2 => consuming r1 || consuming r2
  end.

(** A state of the matcher on a line, seen from the text that goes on with
    a line feed and [t]. *)
Definition on_line (t : str) (st : mstate) : mstate :=
  (fst st ++ LF :: t, snd st).

(** The matches found in a text lie in it from left to right, one after the
    other: [scan r s gs] cuts [s] into stretches that are passed over and
    stretches that [r] matches, whose groups are [gs] in that order. *)
Inductive scan (r : regex) : str -> list (list str) -> Prop :=
| Scan_end : scan r [] []
| Scan_skip c s gs : scan r s gs -> scan r (c :: s) gs
| Scan_hit w rest g gs :
    derives r w g -> scan r rest gs -> scan r (w ++ rest) (g :: gs).

End ReSpec.

Import ReSpec.

(** ** Notions the statements use *)

Module Spec.

(** The value of a string of decimal digits, read from the left. *)
Definition digits_value (ds : str) : N :=
  fold_left (fun acc c =>
               match decimal c with
               | Some d => (10 * acc + d)%N
               | None => acc
               end) ds 0%N.

(** A stretch of text of the shape of a table row, with its five fields:
    [| <num> | <name> | <glyph> <text> | <pct>%]. *)
Inductive table_row (glyphs : list codepoint) : str -> list str -> Prop :=
| Table_row num name_ glyph text_ pct :
    num <> [] -> forallb digit num = true ->
    name_ <> [] -> forallb dot name_ = true ->
    one_of glyphs glyph = true ->
    text_ <> [] -> forallb dot text_ = true ->
    pct <> [] -> forallb digit pct = true ->
    table_row glyphs
      (lit "| " ++ num ++ lit " | " ++ name_ ++ lit " | " ++ [glyph] ++
       lit " " ++ text_ ++ lit " | " ++ pct ++ lit "%")
      [num; name_; [glyph]; text_; pct].

(** The class of the pattern with the bytes of the source line read as
    UTF-8 where the file shows their Mac OS Roman reading: the large red,
    yellow, green and blue circles, the warning sign with its variation
    selector, and the cross mark. *)
Definition decoded_glyphs : list codepoint :=
  [0x1F534; 0x1F7E1; 0x1F7E2; 0x1F535; 0x26A0; 0xFE0F; 0x274C]%N.

(** The same world with another text in the status document. *)
Definition with_document (w : world) (content : str) : world :=
  {| int_max_str_digits := int_max_str_digits w;
     read_module_status := Ok content;
     getcwd := getcwd w;
     path_exists := path_exists w;
     subprocess_run := subprocess_run w;
     now_isoformat := now_isoformat w |}.

(** The same world with another outcome of every [subprocess.run]. *)
Definition with_subprocess (w : world) (r : result completed_process) : world :=
  {| int_max_str_digits := int_max_str_digits w;
     read_module_status := read_module_status w;
     getcwd := getcwd w;
     path_exists := path_exists w;
     subprocess_run := fun _ _ => r;
     now_isoformat := now_isoformat w |}.

(** The first group of a match: the module number. *)
Definition module_num_of (m : list str) : str := hd [] m.

Definition has_key (k : str) (l : list str) : bool :=
  existsb (PyStr.eqb k) l.

(** The keys of a sequence of assignments, each at its first occurrence. *)
Fixpoint first_occurrences (l : list str) : list str :=
  match l with
  | [] => []
  | k :: l' =>
      k :: filter (fun k' => negb (PyStr.eqb k' k)) (first_occurrences l')
  end.

(** The last match, in document order, whose module number is
    [module_num]. *)
Definition last_row (module_num : str) (matches : list (list str))
  : option (list str) :=
  find (fun m => PyStr.eqb (module_num_of m) module_num) (rev matches).



(** The entries the loop of [serve_status] assigns, one per match. *)
Fixpoint entries (w : world) (matches : list (list str))
  : result (list (str * module_info)) :=
  match matches with
  | [] => Ok []
  | m :: rest =>
      bind (module_entry w m) (fun kv =>
      bind (entries w rest) (fun kvs => Ok (kv :: kvs)))
  end.

Definition assign_all {V} (d : dict V) (kvs : list (str * V)) : dict V :=
  fold_left (fun d kv => dict_set (fst kv) (snd kv) d) kvs d.

(** The line splits into two segments or more. *)
Definition two_segments (line : str) : bool :=
  (2 <=? List.length (split 2 line))%nat.

(** The repository of a module cannot be probed: its directory is missing,
    or both history queries end with a non-zero exit status. *)
Definition probe_fails (w : world) (module_num : str) : Prop :=
  path_exists w (module_dir module_num) = false \/
  exists count_run log_run,
    subprocess_run w [lit "git"; lit "rev-list"; lit "--count"; lit "HEAD"]
                   (module_dir module_num) = Ok count_run /\
    returncode count_run <> 0%Z /\
    subprocess_run w [lit "git"; lit "log"; lit "-1"; lit "--format=%ar"]
                   (module_dir module_num) = Ok log_run /\
    returncode log_run <> 0%Z.

(** No percentage of the document has more digits than [int()] converts. *)
Definition within_int_limit (w : world) (content : str) : Prop :=
  forall m, In m (findall pattern content) ->
    match limit_value (int_max_str_digits w) with
    | Some l => List.length (nth 4 m []) <= l
    | None => True
    end.

End Spec.

Import Spec.

(** ** Sample documents and outputs *)

Module Samples.

(** A world without module repositories, in which [git] cannot be run. *)
Definition bare_world (content : str) : world :=
  {| int_max_str_digits := default_limit;
     read_module_status := Ok content;
     getcwd := Ok (lit "/srv/dawg-ai");
     path_exists := fun _ => false;
     subprocess_run := fun _ _ =>
       Raise (OSError (lit "[Errno 2] No such file or directory: 'git'"));
     now_isoformat := lit "2025-10-05T12:00:00.000000" |}.

(** A world whose status document is missing. *)
Definition no_document_world : world :=
  {| int_max_str_digits := default_limit;
     read_module_status :=
       Raise (OSError
         (lit "[Errno 2] No such file or directory: 'MODULE_STATUS.md'"));
     getcwd := Ok (lit "/srv/dawg-ai");
     path_exists := fun _ => false;
     subprocess_run := fun _ _ => Ok {| returncode := 128; stdout := [] |};
     now_isoformat := lit "2025-10-05T12:00:00.000000" |}.

(** A world in which every [git] command prints [out] and exits with
    [code]. *)
Definition git_world (code : Z) (out : str) : world :=
  {| int_max_str_digits := default_limit;
     read_module_status := Ok [];
     getcwd := Ok (lit "/srv/dawg-ai");
     path_exists := fun _ => true;
     subprocess_run := fun _ _ => Ok {| returncode := code; stdout := out |};
     now_isoformat := lit "2025-10-05T12:00:00.000000" |}.

(** A world whose working directory, [/srv/] followed by U+6570 U+636E, is
    gone when [git] is to be started in it: [subprocess.run] raises the
    error of the failed change of directory, whose text names the path. *)
Definition gone_cwd_world : world :=
  {| int_max_str_digits := default_limit;
     read_module_status := Ok [];
     getcwd := Ok (lit "/srv/" ++ [0x6570; 0x636E]%N);
     path_exists := fun _ => false;
     subprocess_run := fun _ _ =>
       Raise (OSError (lit "[Errno 2] No such file or directory: '/srv/" ++
                       [0x6570; 0x636E]%N ++ lit "'"));
     now_isoformat := lit "2025-10-05T12:00:00.000000" |}.

(** A world in which [git] runs and prints a byte that is no UTF-8:
    [subprocess.run] raises when it decodes the output. *)
Definition undecodable_world : world :=
  {| int_max_str_digits := default_limit;
     read_module_status := Ok [];
     getcwd := Ok (lit "/srv/dawg-ai");
     path_exists := fun _ => false;
     subprocess_run := fun _ _ =>
       Raise (UnicodeDecodeError (lit "invalid start byte"));
     now_isoformat := lit "2025-10-05T12:00:00.000000" |}.

(** [| 2 | Audio Engine | <U+1F7E1> In Progress | 45% |] *)
Definition audio_engine_row : str :=
  lit "| 2 | Audio Engine | " ++ [0x1F7E1%N] ++ lit " In Progress | 45% |".

(** A row whose glyph, U+00FC, is one of the code points of the class, and
    whose percentage is 150. *)
Definition overfull_row : str :=
  lit "| 1 | Core | " ++ [0xFC%N] ++ lit " Blocked | 150% |".

(** The record that row gives when module 1 has no repository. *)
Definition overfull_info : module_info :=
  {| name := lit "Core";
     status := [0xFC%N];
     status_text := lit "Blocked";
     progress := 150;
     commits := 0;
     lastActive := lit "Never" |}.

(** The same row with the large red circle, U+1F534, as its glyph. *)
Definition overfull_row_decoded : str :=
  lit "| 1 | Core | " ++ [0x1F534%N] ++ lit " Blocked | 150% |".

(** A heading, then rows for modules 3, 4 and 3 again. *)
Definition duplicate_rows : list str :=
  [lit "## Modules";
   lit "| 3 | Mixer | " ++ [0xFC%N] ++ lit " Planned | 0% |";
   lit "| 4 | Effects | " ++ [0xE5%N] ++ lit " In Progress | 20% |";
   lit "| 3 | Mixer v2 | " ++ [0xF6%N] ++ lit " Complete | 100% |"].

(** The records of modules 3 and 4 after those rows, when neither module
    has a repository. *)
Definition mixer_info : module_info :=
  {| name := lit "Mixer v2";
     status := [0xF6%N];
     status_text := lit "Complete";
     progress := 100;
     commits := 0;
     lastActive := lit "Never" |}.

Definition effects_info : module_info :=
  {| name := lit "Effects";
     status := [0xE5%N];
     status_text := lit "In Progress";
     progress := 20;
     commits := 0;
     lastActive := lit "Never" |}.

(** A world in which module 4 alone has a repository, of 12 commits. *)
Definition effects_repo_world : world :=
  {| int_max_str_digits := Unlimited;
     read_module_status := Ok [];
     getcwd := Ok (lit "/srv/dawg-ai");
     path_exists := fun path => PyStr.eqb path (lit "../dawg-module-4");
     subprocess_run := fun argv _ =>
       if PyStr.eqb (nth 1 argv []) (lit "rev-list")
       then Ok {| returncode := 0; stdout := lit "12" ++ [LF] |}
       else Ok {| returncode := 0; stdout := lit "3 hours ago" ++ [LF] |};
     now_isoformat := lit "2025-10-05T12:00:30.000000" |}.


(** A row whose glyph, the purple circle U+1F7E3, is not in the class. *)
Definition purple_row : str :=
  lit "| 5 | Transport | " ++ [0x1F7E3%N] ++ lit " Review | 60% |".

(** What [git log --all --oneline --graph --decorate -15] prints (git
    2.39) for a history of four feature branches, merged two by two and
    then into main: fifteen commits, and the lines that draw the graph
    between them; the output ends with a line feed. *)
Definition merge_graph : list str :=
  [lit "* 7a6e1ee (HEAD -> main) after";
   lit "*   e536461 merge f3";
   lit "|\  ";
   lit "| *   fd23f23 (f3) merge f4 into f3";
   lit "| |\  ";
   lit "| | * 3d618af (f4) feat 4 b";
   lit "| | * ae497e1 feat 4 a";
   lit "| * | f37f268 feat 3 b";
   lit "| * | 160d2e8 feat 3 a";
   lit "| |/  ";
   lit "* |   1d2cff2 merge f1";
   lit "|\ \  ";
   lit "| * \   d8f6805 (f1) merge f2 into f1";
   lit "| |\ \  ";
   lit "| | * | 7f4c152 (f2) feat 2 b";
   lit "| | * | c95adbb feat 2 a";
   lit "| | |/  ";
   lit "| * | cbf85c3 feat 1 b";
   lit "| * | fd40cdc feat 1 a";
   lit "| |/  ";
   lit "* / 22de787 main work";
   lit "|/  ";
   lit "* dac044f init";
   []].

(** The same command on a history of three commits. *)
Definition three_commits : list str :=
  [lit "* 5d5e797 (main) one";
   lit "* 6402fdb (o2) two";
   lit "* 51fa43d (HEAD -> o3) three"].

(** A world like [git_world 0 []] under the smallest limit of [int()]. *)
Definition long_limit_world : world :=
  {| int_max_str_digits := Limit 0;
     read_module_status := Ok [];
     getcwd := Ok (lit "/srv/dawg-ai");
     path_exists := fun _ => false;
     subprocess_run := fun _ _ => Ok {| returncode := 128; stdout := [] |};
     now_isoformat := lit "2025-10-05T12:00:00.000000" |}.

(** A world like [git_world 0 []], but for the working directory, which
    is gone, and for the path of the service itself, which [os.path.exists]
    denies. *)
Definition slash_world : world :=
  {| int_max_str_digits := default_limit;
     read_module_status := Ok [];
     getcwd := Raise (OSError (lit "[Errno 2] No such file or directory"));
     path_exists := fun path => negb (PyStr.eqb path (lit "/srv/dawg-ai"));
     subprocess_run := fun _ _ => Ok {| returncode := 0; stdout := [] |};
     now_isoformat := lit "2025-10-05T12:00:00.000000" |}.

End Samples.

Import Samples.

(** ** Notions for the rest of the handlers *)

Module Coverage.

(** A non-empty string of decimal digits. *)
Definition is_digits (s : str) : Prop :=
  s <> [] /\ forallb isdecimal s = true.

(** A string [s.strip()] leaves as it is. *)
Definition stripped (s : str) : Prop := strip s = s.

(** A field of a table row that the lazy groups capture whole: not empty,
    on one line, and without a vertical bar. *)
Definition plain_field (s : str) : Prop :=
  s <> [] /\ ~ In LF s /\ ~ In 0x7C%N s.

(** The text of a table row:
    [| <num> | <name> | <glyph> <text> | <pct>%]. *)
Definition table_line (num name_ : str) (glyph : codepoint)
  (text_ pct : str) : str :=
  lit "| " ++ num ++ lit " | " ++ name_ ++ lit " | " ++ [glyph] ++
  lit " " ++ text_ ++ lit " | " ++ pct ++ lit "%".

(** The record [serve_status] builds from the fields of a row. *)
Definition record_of (w : world) (num name_ : str) (glyph : codepoint)
  (text_ pct : str) : module_info :=
  {| name := strip name_;
     status := [glyph];
     status_text := strip text_;
     progress := Z.of_N (digits_value pct);
     commits := get_module_commits w num;
     lastActive := get_last_activity w num |}.

(** A row of the table as a document may hold it on a line: its five
    fields, and what follows the percent sign on the line. *)
Record table_entry := {
  t_num : str;
  t_name : str;
  t_glyph : codepoint;
  t_text : str;
  t_pct : str;
  t_tail : str
}.

Definition entry_line (r : table_entry) : str :=
  table_line (t_num r) (t_name r) (t_glyph r) (t_text r) (t_pct r) ++ t_tail r.

Definition entry_groups (r : table_entry) : list str :=
  [t_num r; t_name r; [t_glyph r]; t_text r; t_pct r].

Definition entry_record (w : world) (r : table_entry) : str * module_info :=
  (t_num r,
   record_of w (t_num r) (t_name r) (t_glyph r) (t_text r) (t_pct r)).

(** No code point of the text is in the class. *)
Definition glyph_free (glyphs : list codepoint) (s : str) : Prop :=
  forall c, In c s -> one_of glyphs c = false.

(** A row whose fields the pattern captures as they stand: the number and
    the percentage are digits, the percentage short enough for [int()]
    under every limit, the name and the text are plain, the glyph is of the
    class, and what follows the row holds no glyph. *)
Definition well_formed (glyphs : list codepoint) (r : table_entry) : Prop :=
  is_digits (t_num r) /\ is_digits (t_pct r) /\
  List.length (t_pct r) <= 640 /\
  plain_field (t_name r) /\ plain_field (t_text r) /\
  one_of glyphs (t_glyph r) = true /\
  glyph_free glyphs (t_tail r).

(** Two worlds answer alike every probe of a module directory whose number
    is a string of decimal digits. *)
Definition same_probes (w1 w2 : world) : Prop :=
  forall num, is_digits num ->
    path_exists w1 (module_dir num) = path_exists w2 (module_dir num) /\
    forall argv,
      subprocess_run w1 argv (module_dir num) =
      subprocess_run w2 argv (module_dir num).

(** A word: not empty and without whitespace. *)
Definition is_word (s : str) : Prop :=
  s <> [] /\ forallb (fun c => negb (isspace c)) s = true.

(** A commit subject as [git log --oneline] prints it after the hash: not
    empty, on one line, and starting with no whitespace. *)
Definition is_subject (s : str) : Prop :=
  ~ In LF s /\ exists c s', s = c :: s' /\ isspace c = false.

(** The line [git log --oneline --graph] prints for a commit of a linear
    history: [* <hash> <subject>]. *)
Definition commit_line (h subject : str) : str :=
  lit "* " ++ h ++ lit " " ++ subject.

Definition commit_entry_of (c : str * str) : commit_entry :=
  {| hash := firstn 7 (fst c); message := snd c; time := [] |}.

(** The entry one turn of the loop appends for a line of two segments or
    more. *)
Definition entry_of_line (line : str) : commit_entry :=
  {| hash := firstn 7 (nth 1 (split 2 line) []);
     message := if (2 <? List.length (split 2 line))%nat
                then nth 2 (split 2 line) [] else line;
     time := [] |}.

Definition known_route (path : str) : Prop :=
  path = lit "/" \/ path = lit "/api/status" \/ path = lit "/api/git".

End Coverage.

Import Coverage.

Module CoverageSamples.

(** Two well-formed rows, each closed by a vertical bar. *)
Definition mixer_row : table_entry :=
  {| t_num := lit "3"; t_name := lit "Mixer v2"; t_glyph := 0xF6%N;
     t_text := lit "Complete"; t_pct := lit "100"; t_tail := lit " |" |}.

Definition effects_row : table_entry :=
  {| t_num := lit "4"; t_name := lit "Effects"; t_glyph := 0xE5%N;
     t_text := lit "In Progress"; t_pct := lit "20"; t_tail := lit " |" |}.

End CoverageSamples.

Import CoverageSamples.

(** * Properties *)

(** ** Strings *)

Module PyStrFacts.

Lemma eqb_eq (a b : str) : PyStr.eqb a b = true <-> a = b.
Proof.
  unfold PyStr.eqb. destruct (list_eq_dec N.eq_dec a b); split; congruence.
Qed.

Lemma eqb_refl (a : str) : PyStr.eqb a a = true.
Proof. now apply eqb_eq. Qed.

Lemma eqb_neq (a b : str) : PyStr.eqb a b = false <-> a <> b.
Proof.
  unfold PyStr.eqb. destruct (list_eq_dec N.eq_dec a b); split; congruence.
Qed.

Lemma mem_In (c : codepoint) (l : list codepoint) : mem c l = true <-> In c l.
Proof.
  unfold mem. rewrite existsb_exists. split.
  - intros (x & Hx & E). apply N.eqb_eq in E. now subst.
  - intros H. exists c. split; [assumption | apply N.eqb_refl].
Qed.

Lemma lstrip_by_incl (sp : codepoint -> bool) (s : str) (c : codepoint) :
  In c (lstrip_by sp s) -> In c s.
Proof.
  induction s as [|x s IH]; simpl; [tauto|].
  destruct (sp x); simpl; tauto.
Qed.

Lemma strip_by_incl (sp : codepoint -> bool) (s : str) (c : codepoint) :
  In c (strip_by sp s) -> In c s.
Proof.
  unfold strip_by, rstrip_by. intros H.
  apply in_rev, lstrip_by_incl, in_rev in H.
  now apply lstrip_by_incl in H.
Qed.

(** What is left of a string that starts with no stripped code point. *)
Lemma lstrip_by_head (sp : codepoint -> bool) (c : codepoint) (s : str) :
  sp c = false -> lstrip_by sp (c :: s) = c :: s.
Proof. intros H. simpl. now rewrite H. Qed.

Lemma lstrip_by_nil_iff (sp : codepoint -> bool) (s : str) :
  lstrip_by sp s = [] <-> forallb sp s = true.
Proof.
  induction s as [|x s IH]; simpl; [tauto|].
  destruct (sp x); simpl; [assumption|]. split; discriminate.
Qed.

Lemma forallb_rev (p : codepoint -> bool) (s : str) :
  forallb p (rev s) = forallb p s.
Proof.
  induction s as [|x s IH]; simpl; [reflexivity|].
  rewrite forallb_app, IH. simpl. rewrite andb_true_r. apply andb_comm.
Qed.

(** [s.strip()] is empty exactly when [s] is whitespace throughout. *)
Lemma strip_nil_iff (s : str) : strip s = [] <-> forallb isspace s = true.
Proof.
  unfold strip, strip_by, rstrip_by. split.
  - intros H.
    assert (H1 : lstrip_by isspace (rev (lstrip_by isspace s)) = []).
    { destruct (lstrip_by isspace (rev (lstrip_by isspace s))); [reflexivity|].
      simpl in H. now apply app_eq_nil in H. }
    apply lstrip_by_nil_iff in H1. rewrite forallb_rev in H1.
    clear H. induction s as [|x s IH]; simpl in *; [reflexivity|].
    destruct (isspace x) eqn:E; simpl in *; [auto|].
    now rewrite E in H1.
  - intros H. apply lstrip_by_nil_iff in H. now rewrite H.
Qed.

Lemma split_eq (n : nat) (s : str) :
  split n s =
  match lstrip s with
  | [] => []
  | c :: s' =>
      match n with
      | O => [c :: s']
      | S m => let (w, rest) := word (c :: s') in w :: split m rest
      end
  end.
Proof. destruct n; reflexivity. Qed.

Lemma split_length (n : nat) (s : str) : List.length (split n s) <= S n.
Proof.
  revert s. induction n as [|n IH]; intros s; rewrite split_eq.
  - destruct (lstrip s); simpl; lia.
  - destruct (lstrip s) as [|c s']; [simpl; lia|].
    destruct (word (c :: s')) as [w rest].
    specialize (IH rest). simpl List.length. lia.
Qed.

(** A string of whitespace has no segments. *)
Lemma split_blank (n : nat) (s : str) :
  forallb isspace s = true -> split n s = [].
Proof.
  intros H. apply lstrip_by_nil_iff in H.
  rewrite split_eq. unfold lstrip. now rewrite H.
Qed.

Lemma split_on_not_nil (sep : codepoint) (s : str) : split_on sep s <> [].
Proof.
  destruct s as [|c s]; simpl; [discriminate|].
  destruct (c =? sep)%N; [discriminate|].
  destruct (split_on sep s); discriminate.
Qed.

(** Splitting at a separator: the part before the first separator, then the
    parts of what follows it. *)
Lemma split_on_app (sep : codepoint) (a b : str) :
  ~ In sep a -> split_on sep (a ++ sep :: b) = a :: split_on sep b.
Proof.
  induction a as [|c a IH]; simpl; intros H.
  - now rewrite N.eqb_refl.
  - destruct (c =? sep)%N eqn:E.
    + apply N.eqb_eq in E. subst. tauto.
    + rewrite IH by tauto. reflexivity.
Qed.

Lemma split_on_single (sep : codepoint) (a : str) :
  ~ In sep a -> split_on sep a = [a].
Proof.
  induction a as [|c a IH]; simpl; intros H; [reflexivity|].
  destruct (c =? sep)%N eqn:E.
  - apply N.eqb_eq in E. subst. tauto.
  - rewrite IH by tauto. reflexivity.
Qed.

End PyStrFacts.

Import PyStrFacts.

(** ** The matcher *)

Module ReFacts.

(** *** Backtracking finds the first alternative *)

Lemma first_some_ext {A T} (f g : A -> option T) l :
  (forall x, f x = g x) -> first_some f l = first_some g l.
Proof.
  intros H. induction l as [|x l IH]; simpl; [reflexivity|].
  now rewrite H, IH.
Qed.

Lemma first_some_app {A T} (f : A -> option T) l1 l2 :
  first_some f (l1 ++ l2) =
  match first_some f l1 with
  | Some t => Some t
  | None => first_some f l2
  end.
Proof.
  induction l1 as [|x l1 IH]; simpl; [reflexivity|].
  now destruct (f x).
Qed.

Lemma first_some_map {A B T} (f : B -> option T) (g : A -> B) l :
  first_some f (map g l) = first_some (fun x => f (g x)) l.
Proof.
  induction l as [|x l IH]; simpl; [reflexivity|]. now rewrite IH.
Qed.

Lemma first_some_flat_map {A B T} (f : B -> option T) (g : A -> list B) l :
  first_some f (flat_map g l) = first_some (fun x => first_some f (g x)) l.
Proof.
  induction l as [|x l IH]; simpl; [reflexivity|].
  rewrite first_some_app, IH. reflexivity.
Qed.

Lemma first_some_hd {A} (l : list A) : first_some Some l = hd_error l.
Proof. now destruct l. Qed.

Lemma plus_backtrack_rests {T} greedy p (k : str -> option T) : forall s,
  plus_backtrack greedy p s k = first_some k (plus_rests greedy p s).
Proof.
  induction s as [|c s IH]; simpl; [reflexivity|].
  destruct (p c); [|reflexivity].
  destruct greedy.
  - rewrite first_some_app, IH. simpl. now destruct (k s).
  - simpl. now rewrite IH.
Qed.

Lemma backtrack_alternatives {T} r : forall s groups
  (k : str -> list str -> option T),
  backtrack r s groups k =
  first_some (fun st => k (fst st) (snd st)) (alternatives r s groups).
Proof.
  induction r as [|c|p|greedy p|r IH|r1 IH1 r2 IH2]; intros s groups k; simpl.
  - now destruct (k s groups).
  - destruct s as [|x s]; [reflexivity|].
    destruct (x =? c)%N; [|reflexivity]. simpl. now destruct (k s groups).
  - destruct s as [|x s]; [reflexivity|].
    destruct (p x); [|reflexivity]. simpl. now destruct (k s groups).
  - now rewrite plus_backtrack_rests, first_some_map.
  - now rewrite IH, first_some_map.
  - rewrite IH1, first_some_flat_map. apply first_some_ext.
    intros st. apply IH2.
Qed.

(** [re.match] returns the first of the alternatives. *)
Lemma match_at_alternatives r s :
  match_at r s = hd_error (alternatives r s []).
Proof.
  unfold match_at. rewrite backtrack_alternatives.
  rewrite <- first_some_hd. apply first_some_ext. now intros [rest groups].
Qed.

(** *** What the alternatives are *)

Lemma plus_rests_sound greedy p s rest :
  In rest (plus_rests greedy p s) ->
  exists w, s = w ++ rest /\ w <> [] /\ forallb p w = true.
Proof.
  revert rest. induction s as [|c s IH]; simpl; intros rest H; [tauto|].
  destruct (p c) eqn:Hc; [|contradiction].
  assert (Hcase : rest = s \/ In rest (plus_rests greedy p s)).
  { destruct greedy.
    - apply in_app_or in H. simpl in H. intuition.
    - simpl in H. intuition. }
  destruct Hcase as [->|Hin].
  - exists [c]. simpl. rewrite Hc. repeat split; discriminate.
  - destruct (IH _ Hin) as (w & -> & _ & Hw).
    exists (c :: w). simpl. rewrite Hc, Hw. repeat split; discriminate.
Qed.

Lemma firstn_consumed (w rest : str) :
  firstn (List.length (w ++ rest) - List.length rest) (w ++ rest) = w.
Proof.
  rewrite length_app.
  replace (List.length w + List.length rest - List.length rest)
    with (List.length w + 0) by lia.
  rewrite firstn_app_2. simpl. apply app_nil_r.
Qed.

(** Whatever the matcher returns is a match in the sense of [derives]: the
    text is the matched part followed by what is left, and the groups are
    those of the match, after the ones already closed. *)
Lemma alternatives_sound r : forall s groups st,
  In st (alternatives r s groups) ->
  exists w gs, s = w ++ fst st /\ snd st = groups ++ gs /\ derives r w gs.
Proof.
  induction r as [|c|p|greedy p|r IH|r1 IH1 r2 IH2]; simpl; intros s groups st H.
  - destruct H as [<-|[]]. exists [], []. simpl.
    rewrite app_nil_r. repeat split. constructor.
  - destruct s as [|x s]; [contradiction|].
    destruct (x =? c)%N eqn:E; [|contradiction].
    apply N.eqb_eq in E. subst. destruct H as [<-|[]].
    exists [c], []. simpl. rewrite app_nil_r. repeat split. constructor.
  - destruct s as [|x s]; [contradiction|].
    destruct (p x) eqn:E; [|contradiction].
    destruct H as [<-|[]].
    exists [x], []. simpl. rewrite app_nil_r. repeat split. now constructor.
  - apply in_map_iff in H. destruct H as (rest & <- & Hin).
    destruct (plus_rests_sound _ _ _ _ Hin) as (w & -> & Hne & Hall).
    exists w, []. simpl. rewrite app_nil_r. repeat split. now constructor.
  - apply in_map_iff in H. destruct H as (st' & <- & Hin).
    destruct (IH _ _ _ Hin) as (w & gs & Hs & Hg & Hd). simpl.
    exists w, (gs ++ [w]). split; [assumption|]. split; [|now constructor].
    rewrite Hg, app_assoc. do 2 f_equal. rewrite Hs. apply firstn_consumed.
  - apply in_flat_map in H. destruct H as (st' & Hin1 & Hin2).
    destruct (IH1 _ _ _ Hin1) as (w1 & gs1 & Hs1 & Hg1 & Hd1).
    destruct (IH2 _ _ _ Hin2) as (w2 & gs2 & Hs2 & Hg2 & Hd2).
    exists (w1 ++ w2), (gs1 ++ gs2).
    rewrite Hs1, Hs2, Hg2, Hg1, !app_assoc. repeat split. now constructor.
Qed.

Lemma derives_consuming r w gs :
  consuming r = true -> derives r w gs -> w <> [].
Proof.
  intros Hc Hd. induction Hd; simpl in Hc; try discriminate; auto.
  apply orb_true_iff in Hc. intros E. apply app_eq_nil in E.
  destruct Hc; tauto.
Qed.

Lemma match_at_sound r s rest groups :
  match_at r s = Some (rest, groups) ->
  exists w, s = w ++ rest /\ derives r w groups.
Proof.
  rewrite match_at_alternatives. intros H.
  destruct (alternatives r s []) as [|st l] eqn:E; [discriminate|].
  injection H as ->.
  destruct (alternatives_sound r s [] (rest, groups)) as (w & gs & Hs & Hg & Hd).
  { rewrite E. now left. }
  simpl in *. subst groups. now exists w.
Qed.

Lemma match_at_nil r : consuming r = true -> match_at r [] = None.
Proof.
  intros Hc. destruct (match_at r []) as [[rest groups]|] eqn:E; [|reflexivity].
  apply match_at_sound in E. destruct E as (w & Hs & Hd).
  symmetry in Hs. apply app_eq_nil in Hs.
  now destruct (derives_consuming _ _ _ Hc Hd).
Qed.

(** The scan resumes where the last match ended. *)
Lemma findall_from_covered r : forall s k,
  findall_from r k s = findall_from r 0 (skipn k s).
Proof.
  induction s as [|c s IH]; intros k.
  - now destruct k.
  - destruct k as [|k]; [reflexivity|]. simpl. apply IH.
Qed.

Lemma findall_from_cons r c s :
  findall_from r 0 (c :: s) =
  match match_at r (c :: s) with
  | Some (rest, groups) =>
      groups ::
      findall_from r (List.length (c :: s) - List.length rest - 1) s
  | None => findall_from r 0 s
  end.
Proof. reflexivity. Qed.

(** The equation of [re.findall]: a match at the current position is
    recorded and the scan goes on after it; otherwise the scan moves on by
    one code point. *)
Lemma findall_eq r s :
  consuming r = true ->
  findall r s =
  match s with
  | [] => []
  | _ :: s' =>
      match match_at r s with
      | Some (rest, groups) => groups :: findall r rest
      | None => findall r s'
      end
  end.
Proof.
  intros Hc. unfold findall. destruct s as [|c s]; [reflexivity|].
  rewrite findall_from_cons.
  destruct (match_at r (c :: s)) as [[rest groups]|] eqn:E; [|reflexivity].
  f_equal. rewrite findall_from_covered. f_equal.
  apply match_at_sound in E. destruct E as (w & Hs & Hd).
  pose proof (derives_consuming _ _ _ Hc Hd) as Hne.
  destruct w as [|x w]; [congruence|].
  simpl in Hs. injection Hs as -> ->.
  replace (List.length (x :: w ++ rest) - List.length rest - 1)
    with (List.length w + 0)
    by (change (x :: w ++ rest) with ((x :: w) ++ rest);
        rewrite length_app; simpl List.length; lia).
  rewrite skipn_app, skipn_all2 by lia.
  replace (List.length w + 0 - List.length w) with 0 by lia. reflexivity.
Qed.

(** The matches are found from left to right, one after the other. *)
Lemma findall_scan r :
  consuming r = true -> forall s, scan r s (findall r s).
Proof.
  intros Hc s.
  remember (List.length s) as n eqn:Hn.
  revert s Hn. induction n as [n IH] using lt_wf_ind. intros s Hn.
  rewrite findall_eq by assumption.
  destruct s as [|c s]; [constructor|].
  destruct (match_at r (c :: s)) as [[rest groups]|] eqn:E.
  - apply match_at_sound in E. destruct E as (w & Hs & Hd).
    rewrite Hs. constructor; [assumption|].
    apply (IH (List.length rest)); [|reflexivity].
    pose proof (derives_consuming _ _ _ Hc Hd) as Hne.
    subst n. rewrite Hs, length_app.
    destruct w; [congruence|simpl; lia].
  - constructor. apply (IH (List.length s)); [subst n; simpl; lia|reflexivity].
Qed.

Lemma scan_In r s gs g :
  scan r s gs -> In g gs ->
  exists w before after, derives r w g /\ s = before ++ w ++ after.
Proof.
  induction 1 as [|c s gs _ IH|w rest g' gs Hd _ IH]; simpl; intros Hin.
  - contradiction.
  - destruct (IH Hin) as (w & b & a & Hd & ->).
    now exists w, (c :: b), a.
  - destruct Hin as [<-|Hin].
    + now exists w, [], rest.
    + destruct (IH Hin) as (w' & b & a & Hd' & ->).
      exists w', (w ++ b), a. now rewrite <- app_assoc.
Qed.

(** Every tuple [re.findall] returns holds the groups of a match that lies
    in the text. *)
Lemma findall_located r s g :
  consuming r = true -> In g (findall r s) ->
  exists w before after, derives r w g /\ s = before ++ w ++ after.
Proof. intros Hc. apply scan_In. now apply findall_scan. Qed.

Lemma findall_derives r s g :
  consuming r = true -> In g (findall r s) -> exists w, derives r w g.
Proof.
  intros Hc Hin. destruct (findall_located r s g Hc Hin) as (w & _ & _ & H & _).
  now exists w.
Qed.

(** *** Matches stay within a line *)

Lemma plus_rests_line greedy p s t :
  p LF = false ->
  plus_rests greedy p (s ++ LF :: t) =
  map (fun rest => rest ++ LF :: t) (plus_rests greedy p s).
Proof.
  intros Hp. induction s as [|c s IH]; simpl.
  - now rewrite Hp.
  - destruct (p c); [|reflexivity].
    rewrite IH. destruct greedy; simpl; [|reflexivity].
    now rewrite map_app.
Qed.

Lemma alternatives_line r :
  single_line r = true ->
  forall s t groups,
    alternatives r (s ++ LF :: t) groups =
    map (on_line t) (alternatives r s groups).
Proof.
  induction r as [|c|p|greedy p|r IH|r1 IH1 r2 IH2]; simpl; intros Hr s t groups.
  - reflexivity.
  - apply negb_true_iff in Hr.
    destruct s as [|x s]; cbn [app].
    + now rewrite N.eqb_sym, Hr.
    + now destruct (x =? c)%N.
  - apply negb_true_iff in Hr.
    destruct s as [|x s]; cbn [app].
    + now rewrite Hr.
    + now destruct (p x).
  - apply negb_true_iff in Hr.
    rewrite plus_rests_line by assumption. now rewrite !map_map.
  - rewrite IH by assumption. rewrite !map_map.
    apply map_ext_in. intros st Hin. unfold on_line. simpl. do 3 f_equal.
    destruct (alternatives_sound _ _ _ _ Hin) as (w & gs & Hs & _ & _).
    rewrite Hs. rewrite <- app_assoc.
    rewrite (firstn_consumed w (fst st ++ LF :: t)).
    symmetry. apply firstn_consumed.
  - apply andb_true_iff in Hr. destruct Hr as [Hr1 Hr2].
    rewrite IH1 by assumption.
    rewrite flat_map_concat_map, map_map, flat_map_concat_map, concat_map, map_map.
    f_equal. apply map_ext. intros st. unfold on_line at 1. simpl.
    now apply IH2.
Qed.

Lemma match_at_line r s t :
  single_line r = true ->
  match_at r (s ++ LF :: t) = option_map (on_line t) (match_at r s).
Proof.
  intros Hr. rewrite !match_at_alternatives.
  rewrite alternatives_line by assumption.
  now destruct (alternatives r s []).
Qed.

Lemma findall_from_line r b :
  single_line r = true -> consuming r = true ->
  forall a k, k <= List.length a ->
    findall_from r k (a ++ LF :: b) = findall_from r k a ++ findall_from r 0 b.
Proof.
  intros Hr Hc. induction a as [|c a IH]; intros k Hk.
  - simpl in Hk. replace k with 0 by lia.
    change ([] ++ LF :: b) with (LF :: b). rewrite findall_from_cons.
    change (LF :: b) with ([] ++ LF :: b) at 1.
    rewrite match_at_line, match_at_nil by assumption. reflexivity.
  - destruct k as [|k].
    + change ((c :: a) ++ LF :: b) with (c :: (a ++ LF :: b)).
      rewrite !findall_from_cons.
      change (c :: (a ++ LF :: b)) with ((c :: a) ++ LF :: b).
      rewrite match_at_line by assumption.
      destruct (match_at r (c :: a)) as [[rest groups]|] eqn:E; simpl option_map.
      * unfold on_line. simpl fst. simpl snd.
        apply match_at_sound in E. destruct E as (w & Hs & Hd).
        pose proof (derives_consuming _ _ _ Hc Hd) as Hne.
        assert (Hlen : List.length (c :: a) = List.length w + List.length rest)
          by (rewrite Hs; apply length_app).
        assert (Hw : 0 < List.length w) by (destruct w; [congruence|simpl; lia]).
        replace (List.length ((c :: a) ++ LF :: b)
                 - List.length (rest ++ LF :: b) - 1)
          with (List.length (c :: a) - List.length rest - 1)
          by (rewrite !length_app; lia).
        assert (Hca : List.length (c :: a) = S (List.length a)) by reflexivity.
        rewrite IH; [reflexivity|lia].
      * rewrite IH by lia. reflexivity.
    + simpl. apply IH. simpl in Hk. lia.
Qed.

(** A match never spans two lines: the matches of a text are those of its
    first line followed by those of the rest. *)
Lemma findall_line r a b :
  single_line r = true -> consuming r = true ->
  findall r (a ++ LF :: b) = findall r a ++ findall r b.
Proof. intros Hr Hc. unfold findall. apply findall_from_line; auto; lia. Qed.

Lemma findall_join r (Hr : single_line r = true) (Hc : consuming r = true) :
  forall lines,
    findall r (join LF lines) = List.concat (map (findall r) lines).
Proof.
  induction lines as [|l lines IH]; [reflexivity|].
  destruct lines as [|l' lines].
  - simpl. now rewrite app_nil_r.
  - change (join LF (l :: l' :: lines)) with (l ++ LF :: join LF (l' :: lines)).
    rewrite findall_line, IH by assumption. reflexivity.
Qed.

End ReFacts.

Import ReFacts.

(** ** [int()] on what [\d+] captures *)

Module PyIntFacts.

Lemma whitespace_not_decimal c : isspace c = true -> isdecimal c = false.
Proof.
  unfold isspace. rewrite mem_In. unfold whitespace. simpl.
  intros H.
  repeat (destruct H as [<-|H]; [vm_compute; reflexivity|]).
  contradiction.
Qed.

Lemma int_isspace_isspace c : int_isspace c = true -> isspace c = true.
Proof.
  unfold int_isspace. destruct (c <? 127)%N; [|tauto].
  rewrite mem_In. simpl. intros H.
  repeat (destruct H as [<-|H]; [vm_compute; reflexivity|]).
  contradiction.
Qed.

Lemma decimal_not_int_isspace c : isdecimal c = true -> int_isspace c = false.
Proof.
  intros H. destruct (int_isspace c) eqn:E; [|reflexivity].
  apply int_isspace_isspace, whitespace_not_decimal in E. congruence.
Qed.

Lemma lstrip_by_digits ds :
  forallb isdecimal ds = true -> lstrip_by int_isspace ds = ds.
Proof.
  destruct ds as [|c ds]; [reflexivity|]. simpl forallb.
  intros H. apply andb_true_iff in H. destruct H as [Hc _].
  apply lstrip_by_head. now apply decimal_not_int_isspace.
Qed.

Lemma int_strip_digits ds : forallb isdecimal ds = true -> int_strip ds = ds.
Proof.
  intros H. unfold int_strip, strip_by, rstrip_by.
  rewrite (lstrip_by_digits ds) by assumption.
  rewrite (lstrip_by_digits (rev ds)) by now rewrite forallb_rev.
  apply rev_involutive.
Qed.

Lemma digits_from_digits ds : forall acc count after,
  forallb isdecimal ds = true -> ds <> [] \/ after = true ->
  digits_from ds acc count after =
  Some (fold_left (fun acc c => match decimal c with
                                | Some d => (10 * acc + d)%N
                                | None => acc
                                end) ds acc,
        count + List.length ds).
Proof.
  induction ds as [|c ds IH]; intros acc count after Hall Hne.
  - simpl. destruct Hne as [Hne| ->]; [congruence|]. do 2 f_equal. lia.
  - simpl in Hall. apply andb_true_iff in Hall. destruct Hall as [Hc Hall].
    unfold isdecimal in Hc. simpl.
    destruct (decimal c) as [d|]; [|discriminate].
    rewrite IH by auto. do 2 f_equal. lia.
Qed.

(** [int()] on a string of decimal digits: its value, unless the string is
    longer than the interpreter allows. *)
Lemma int_digits m ds :
  ds <> [] -> forallb isdecimal ds = true ->
  int m ds =
  match limit_value m with
  | Some l =>
      if Nat.ltb l (List.length ds)
      then Raise (ValueError_exceeds_limit l (List.length ds))
      else Ok (Z.of_N (digits_value ds))
  | None => Ok (Z.of_N (digits_value ds))
  end.
Proof.
  intros Hne Hall. unfold int. rewrite int_strip_digits by assumption.
  destruct ds as [|c ds]; [congruence|].
  assert (Hc : isdecimal c = true)
    by (simpl in Hall; now apply andb_true_iff in Hall).
  destruct (c =? 45)%N eqn:E1.
  { apply N.eqb_eq in E1. subst. discriminate Hc. }
  destruct (c =? 43)%N eqn:E2.
  { apply N.eqb_eq in E2. subst. discriminate Hc. }
  rewrite digits_from_digits by (auto; left; discriminate).
  reflexivity.
Qed.

Lemma int_digits_nonneg m ds v :
  ds <> [] -> forallb isdecimal ds = true -> int m ds = Ok v ->
  v = Z.of_N (digits_value ds) /\ (0 <= v)%Z.
Proof.
  intros Hne Hall H. rewrite int_digits in H by assumption.
  assert (v = Z.of_N (digits_value ds)).
  { destruct (limit_value m) as [l|]; [destruct (Nat.ltb l _)|]; congruence. }
  split; [assumption|]. subst. apply N2Z.is_nonneg.
Qed.

(** A string of at most 640 digits is converted under every limit the
    interpreter accepts. *)
Lemma int_digits_short m ds :
  ds <> [] -> forallb isdecimal ds = true -> List.length ds <= 640 ->
  int m ds = Ok (Z.of_N (digits_value ds)).
Proof.
  intros Hne Hall Hlen. rewrite int_digits by assumption.
  destruct m as [|k]; cbn [limit_value]; [reflexivity|].
  destruct (Nat.ltb (640 + k) (List.length ds)) eqn:E; [|reflexivity].
  apply Nat.ltb_lt in E. lia.
Qed.

End PyIntFacts.

Import PyIntFacts.

(** ** The pattern of the status table *)

Module PatternFacts.

Lemma pattern_over_eq glyphs :
  pattern_over glyphs =
  Seq (Chr 124%N) (Seq (Chr 32%N) (Seq (Grp (Plus true digit))
  (Seq (Chr 32%N) (Seq (Chr 124%N) (Seq (Chr 32%N) (Seq (Grp (Plus false dot))
  (Seq (Chr 32%N) (Seq (Chr 124%N) (Seq (Chr 32%N) (Seq (Grp (Cls (one_of glyphs)))
  (Seq (Chr 32%N) (Seq (Grp (Plus false dot))
  (Seq (Chr 32%N) (Seq (Chr 124%N) (Seq (Chr 32%N) (Seq (Grp (Plus true digit))
  (Seq (Chr 37%N) Eps))))))))))))))))).
Proof. reflexivity. Qed.

Lemma pattern_over_consuming glyphs : consuming (pattern_over glyphs) = true.
Proof. reflexivity. Qed.

Lemma pattern_over_single_line glyphs :
  one_of glyphs LF = false -> single_line (pattern_over glyphs) = true.
Proof.
  intros H. rewrite pattern_over_eq. simpl. rewrite H. reflexivity.
Qed.

Lemma pattern_single_line : single_line pattern = true.
Proof. now apply pattern_over_single_line. Qed.

Ltac invert_derives :=
  repeat match goal with
    | H : derives (Seq _ _) _ _ |- _ => inversion H; subst; clear H
    | H : derives (Grp _) _ _ |- _ => inversion H; subst; clear H
    | H : derives (Chr _) _ _ |- _ => inversion H; subst; clear H
    | H : derives (Cls _) _ _ |- _ => inversion H; subst; clear H
    | H : derives (Plus _ _) _ _ |- _ => inversion H; subst; clear H
    | H : derives Eps _ _ |- _ => inversion H; subst; clear H
    end.

(** The matches of the pattern are the table rows. *)
Lemma derives_table_row glyphs w g :
  derives (pattern_over glyphs) w g -> table_row glyphs w g.
Proof.
  rewrite pattern_over_eq. intros H. invert_derives.
  repeat rewrite app_nil_r. simpl.
  match goal with
  | |- table_row _ (_ :: _ :: ?num ++ _ :: _ :: _ :: ?nm ++ _ :: _ :: _ :: ?gl
                      :: _ :: ?tx ++ _ :: _ :: _ :: ?pc ++ _) _ =>
      pose proof (Table_row glyphs num nm gl tx pc) as R
  end.
  simpl in R. repeat rewrite <- app_assoc in R. simpl in R.
  now apply R.
Qed.

Lemma table_row_derives glyphs w g :
  table_row glyphs w g -> derives (pattern_over glyphs) w g.
Proof.
  intros [num nm gl tx pc H1 H2 H3 H4 H5 H6 H7 H8 H9].
  rewrite pattern_over_eq.
  change (lit "| " ++ num ++ lit " | " ++ nm ++ lit " | " ++ [gl] ++
          lit " " ++ tx ++ lit " | " ++ pc ++ lit "%")
    with ([124%N] ++ [32%N] ++ num ++ [32%N] ++ [124%N] ++ [32%N] ++ nm ++
          [32%N] ++ [124%N] ++ [32%N] ++ [gl] ++ [32%N] ++ tx ++
          [32%N] ++ [124%N] ++ [32%N] ++ pc ++ [37%N] ++ []).
  change [num; nm; [gl]; tx; pc]
    with ([] ++ [] ++ ([] ++ [num]) ++ [] ++ [] ++ [] ++ ([] ++ [nm]) ++
          [] ++ [] ++ [] ++ ([] ++ [[gl]]) ++ [] ++ ([] ++ [tx]) ++
          [] ++ [] ++ [] ++ ([] ++ [pc]) ++ [] ++ []).
  repeat (constructor; try assumption).
Qed.

End PatternFacts.

Import PatternFacts.

(** ** Dictionaries *)

Module DictFacts.

Section Dict.

Variable V : Type.
Implicit Types (d : dict V) (k : str) (v : V) (kvs : list (str * V)).

Lemma has_key_In k l : has_key k l = true <-> In k l.
Proof.
  unfold has_key. rewrite existsb_exists. split.
  - intros (x & Hx & E). apply eqb_eq in E. now subst.
  - intros H. exists k. split; [assumption | apply eqb_refl].
Qed.

Lemma dict_get_set_same k v d : dict_get k (dict_set k v d) = Some v.
Proof.
  induction d as [|[k' v'] d IH]; simpl.
  - now rewrite eqb_refl.
  - destruct (PyStr.eqb k k') eqn:E; simpl.
    + now rewrite eqb_refl.
    + now rewrite E.
Qed.

Lemma dict_get_set_other k k' v d :
  k <> k' -> dict_get k' (dict_set k v d) = dict_get k' d.
Proof.
  intros Hne. induction d as [|[k0 v0] d IH]; simpl.
  - apply not_eq_sym, eqb_neq in Hne. now rewrite Hne.
  - destruct (PyStr.eqb k k0) eqn:E; simpl.
    + apply eqb_eq in E. subst k0.
      apply not_eq_sym, eqb_neq in Hne. now rewrite Hne.
    + now rewrite IH.
Qed.

Lemma keys_dict_set k v d :
  keys (dict_set k v d) =
  if has_key k (keys d) then keys d else keys d ++ [k].
Proof.
  induction d as [|[k' v'] d IH]; simpl; [reflexivity|].
  destruct (PyStr.eqb k k') eqn:E; simpl.
  - apply eqb_eq in E. now subst.
  - unfold keys in *. rewrite IH.
    now destruct (has_key k (map fst d)).
Qed.

Lemma In_dict_set kv k v d :
  In kv (dict_set k v d) -> kv = (k, v) \/ In kv d.
Proof.
  induction d as [|[k' v'] d IH]; simpl.
  - intuition.
  - destruct (PyStr.eqb k k'); simpl; intuition.
Qed.

Lemma dict_get_app k d1 d2 :
  dict_get k (d1 ++ d2) =
  match dict_get k d1 with
  | Some v => Some v
  | None => dict_get k d2
  end.
Proof.
  induction d1 as [|[k' v'] d1 IH]; simpl; [reflexivity|].
  now destruct (PyStr.eqb k k').
Qed.

Lemma assign_all_cons d kv kvs :
  assign_all d (kv :: kvs) = assign_all (dict_set (fst kv) (snd kv) d) kvs.
Proof. reflexivity. Qed.

(** After a run of assignments a key holds the value assigned to it last. *)
Lemma dict_get_assign_all k : forall kvs d,
  dict_get k (assign_all d kvs) =
  match dict_get k (rev kvs) with
  | Some v => Some v
  | None => dict_get k d
  end.
Proof.
  induction kvs as [|[k0 v0] kvs IH]; intros d; [reflexivity|].
  rewrite assign_all_cons, IH. simpl rev. rewrite dict_get_app.
  destruct (dict_get k (rev kvs)); [reflexivity|]. simpl.
  destruct (PyStr.eqb k k0) eqn:E.
  - apply eqb_eq in E. subst. apply dict_get_set_same.
  - apply dict_get_set_other. apply eqb_neq in E. congruence.
Qed.

Lemma In_assign_all kv : forall kvs d,
  In kv (assign_all d kvs) -> In kv d \/ In kv kvs.
Proof.
  induction kvs as [|[k0 v0] kvs IH]; intros d H; [now left|].
  rewrite assign_all_cons in H. apply IH in H. simpl in *.
  destruct H as [H|H]; [|tauto].
  apply In_dict_set in H. destruct H; [right; left; congruence|tauto].
Qed.

Lemma filter_filter (f g : str -> bool) (l : list str) :
  filter f (filter g l) = filter (fun x => g x && f x) l.
Proof.
  induction l as [|x l IH]; simpl; [reflexivity|].
  destruct (g x); simpl; [destruct (f x)|]; now rewrite IH.
Qed.

(** The keys stand in the order in which they were first assigned. *)
Lemma keys_assign_all : forall kvs d,
  keys (assign_all d kvs) =
  keys d ++ filter (fun k => negb (has_key k (keys d)))
                   (first_occurrences (map fst kvs)).
Proof.
  induction kvs as [|[k0 v0] kvs IH]; intros d.
  - simpl. now rewrite app_nil_r.
  - rewrite assign_all_cons, IH, keys_dict_set. simpl fst. simpl snd.
    simpl map. simpl first_occurrences. simpl filter.
    destruct (has_key k0 (keys d)) eqn:E; simpl negb; cbv iota.
    + f_equal. rewrite filter_filter. apply filter_ext_in.
      intros x _. destruct (has_key x (keys d)) eqn:Ex;
        [now rewrite andb_false_r|].
      rewrite andb_true_r. simpl.
      destruct (PyStr.eqb x k0) eqn:E0; [|reflexivity].
      apply eqb_eq in E0. congruence.
    + rewrite <- app_assoc. simpl. do 2 f_equal.
      rewrite filter_filter. apply filter_ext.
      intros x. unfold has_key. rewrite existsb_app. simpl.
      rewrite orb_false_r, negb_orb. apply andb_comm.
Qed.

End Dict.

Lemma first_occurrences_In k : forall l,
  In k (first_occurrences l) <-> In k l.
Proof.
  induction l as [|x l IH]; simpl; [tauto|].
  rewrite filter_In, IH. split.
  - intuition.
  - intros [H|H]; [now left|].
    destruct (PyStr.eqb k x) eqn:E.
    + apply eqb_eq in E. now left.
    + right. now split.
Qed.

Lemma first_occurrences_NoDup : forall l, NoDup (first_occurrences l).
Proof.
  induction l as [|x l IH]; simpl; constructor.
  - rewrite filter_In. intros [_ H]. now rewrite eqb_refl in H.
  - now apply NoDup_filter.
Qed.

End DictFacts.

Import DictFacts.

(** ** The handlers *)

Module HandlerFacts.

Lemma fill_modules_entries w : forall matches d,
  fill_modules w matches d =
  bind (entries w matches) (fun kvs => Ok (assign_all d kvs)).
Proof.
  induction matches as [|m rest IH]; intros d; [reflexivity|].
  simpl. destruct (module_entry w m) as [kv|e]; [|reflexivity]. simpl.
  rewrite IH. now destruct (entries w rest).
Qed.

(** The loop reads the world for the probes and the limit of [int()]
    only. *)
Lemma fill_modules_with_document w content : forall matches d,
  fill_modules (with_document w content) matches d = fill_modules w matches d.
Proof.
  induction matches as [|m rest IH]; intros d; [reflexivity|].
  simpl. change (module_entry (with_document w content) m)
    with (module_entry w m).
  destruct (module_entry w m); [apply IH|reflexivity].
Qed.

Lemma entries_Forall2 w : forall matches kvs,
  entries w matches = Ok kvs ->
  Forall2 (fun m kv => module_entry w m = Ok kv) matches kvs.
Proof.
  induction matches as [|m rest IH]; simpl; intros kvs H.
  - injection H as <-. constructor.
  - destruct (module_entry w m) as [kv|e] eqn:Em; [|discriminate]. simpl in H.
    destruct (entries w rest) as [kvs'|e]; [|discriminate].
    injection H as <-. constructor; auto.
Qed.

Lemma module_entry_inv w m kv :
  module_entry w m = Ok kv ->
  exists num nm gl tx pc p,
    m = [num; nm; gl; tx; pc] /\
    int (int_max_str_digits w) pc = Ok p /\
    kv = (num,
          {| name := strip nm;
             status := gl;
             status_text := strip tx;
             progress := p;
             commits := get_module_commits w num;
             lastActive := get_last_activity w num |}).
Proof.
  unfold module_entry, unpack5. intros H.
  destruct m as [|num [|nm [|gl [|tx [|pc [|x m]]]]]]; try discriminate.
  simpl in H.
  destruct (int (int_max_str_digits w) pc) as [p|e] eqn:Ei; [|discriminate].
  injection H as <-. now exists num, nm, gl, tx, pc, p.
Qed.

Lemma module_entry_key w m kv :
  module_entry w m = Ok kv -> fst kv = module_num_of m.
Proof.
  intros H. apply module_entry_inv in H.
  destruct H as (num & nm & gl & tx & pc & p & -> & _ & ->). reflexivity.
Qed.

Lemma keys_snapshot (kvs : list (str * module_info)) :
  keys (assign_all [] kvs) = first_occurrences (map fst kvs).
Proof.
  rewrite keys_assign_all. cbn [keys map app].
  rewrite (filter_ext _ (fun _ => true)) by reflexivity.
  induction (first_occurrences (map fst kvs)) as [|k l IH]; [reflexivity|].
  simpl. now rewrite IH.
Qed.

(** What a successful answer of [serve_status] is made of. *)
Lemma serve_status_inv w modules updated :
  serve_status w = Json (StatusJson modules updated) ->
  exists content kvs,
    read_module_status w = Ok content /\
    entries w (findall pattern content) = Ok kvs /\
    modules = assign_all [] kvs /\
    updated = now_isoformat w.
Proof.
  unfold serve_status, parse_modules. intros H.
  destruct (read_module_status w) as [content|e]; [|discriminate].
  cbn [bind] in H. rewrite fill_modules_entries in H.
  destruct (entries w (findall pattern content)) as [kvs|e] eqn:E;
    [|discriminate].
  cbn [bind] in H. injection H as <- <-. now exists content, kvs.
Qed.

Lemma entries_keys w matches kvs :
  entries w matches = Ok kvs -> map fst kvs = map module_num_of matches.
Proof.
  intros H. apply entries_Forall2 in H.
  induction H as [|m kv ms kvs Hm _ IH]; [reflexivity|].
  simpl. f_equal; [now apply (module_entry_key w)|assumption].
Qed.

End HandlerFacts.

Import HandlerFacts.

(** ** The records of a snapshot *)

Module ParserClaims.

(** Every record of a snapshot is the entry of one match of the pattern. *)
Lemma record_origin w modules updated k info :
  serve_status w = Json (StatusJson modules updated) ->
  In (k, info) modules ->
  exists content m,
    read_module_status w = Ok content /\
    In m (findall pattern content) /\
    module_entry w m = Ok (k, info).
Proof.
  intros H Hin. apply serve_status_inv in H.
  destruct H as (content & kvs & Hread & Hent & -> & _).
  apply In_assign_all in Hin. destruct Hin as [[]|Hin].
  apply entries_Forall2 in Hent.
  exists content.
  induction Hent as [|m kv ms kvs Hm _ IH]; [contradiction|].
  destruct Hin as [->|Hin].
  - exists m. simpl. auto.
  - destruct (IH Hin) as (m' & Hc & Hin' & Hm'). exists m'. simpl. auto.
Qed.

(** The fifth group of a match is a string of digits, and [int()] gives its
    value. *)
Lemma entry_progress w content m k info :
  In m (findall pattern content) ->
  module_entry w m = Ok (k, info) ->
  progress info = Z.of_N (digits_value (nth 4 m [])) /\ (0 <= progress info)%Z.
Proof.
  intros Hin Hm.
  destruct (findall_derives pattern content m (pattern_over_consuming _) Hin)
    as (t & Hd).
  apply derives_table_row in Hd. destruct Hd.
  apply module_entry_inv in Hm.
  destruct Hm as (num' & nm & gl & tx & pc & p & Hm & Hint & Hkv).
  injection Hm as <- <- <- <- <-. injection Hkv as -> ->. simpl.
  now apply int_digits_nonneg with (m := int_max_str_digits w).
Qed.

(** C1, as the code has it: every record of a snapshot comes from one row
    that matches the pattern, and its progress is the value of the digits
    that stand before the percent sign in that row, hence at least 0; the
    parser compares it with no upper bound. *)
Theorem C1_progress_is_the_value_of_the_digits w modules updated k info :
  serve_status w = Json (StatusJson modules updated) ->
  In (k, info) modules ->
  exists content m,
    read_module_status w = Ok content /\
    In m (findall pattern content) /\
    module_entry w m = Ok (k, info) /\
    progress info = Z.of_N (digits_value (nth 4 m [])) /\
    (0 <= progress info)%Z.
Proof.
  intros H Hin.
  destruct (record_origin w modules updated k info H Hin)
    as (content & m & Hread & Hm & He).
  exists content, m. repeat split; trivial;
    now apply (entry_progress w content m k info).
Qed.

Lemma overfull_snapshot :
  serve_status (bare_world overfull_row) =
  Json (StatusJson [(lit "1", overfull_info)]
                   (now_isoformat (bare_world overfull_row))).
Proof. vm_compute. reflexivity. Qed.

Lemma C1_progress_witness :
  exists content m,
    read_module_status (bare_world overfull_row) = Ok content /\
    In m (findall pattern content) /\
    module_entry (bare_world overfull_row) m = Ok (lit "1", overfull_info) /\
    progress overfull_info = Z.of_N (digits_value (nth 4 m [])) /\
    (0 <= progress overfull_info)%Z.
Proof.
  apply (C1_progress_is_the_value_of_the_digits
           (bare_world overfull_row)
           [(lit "1", overfull_info)]
           (now_isoformat (bare_world overfull_row))).
  - vm_compute. reflexivity.
  - simpl. left. reflexivity.
Defined.

(** C1 as stated fails: a row that reads 150% gives a record whose progress
    is 150. *)
Lemma C1_progress_above_100 :
  ~ (forall w modules updated k info,
       serve_status w = Json (StatusJson modules updated) ->
       In (k, info) modules ->
       (0 <= progress info <= 100)%Z).
Proof.
  intros H.
  specialize (H (bare_world overfull_row) _ _ (lit "1") overfull_info
                overfull_snapshot (or_introl eq_refl)).
  simpl in H. lia.
Qed.

(** The same holds when the class is read as the glyphs it encodes. *)
Lemma progress_above_100_decoded :
  findall (pattern_over decoded_glyphs) overfull_row_decoded =
  [[lit "1"; lit "Core"; [0x1F534%N]; lit "Blocked"; lit "150"]].
Proof. vm_compute. reflexivity. Qed.

(** C5, on the code: for the document that holds the row
    [| 2 | Audio Engine | <U+1F7E1> In Progress | 45% |] the handler answers
    with an empty [modules] dictionary.  The yellow circle is not among the
    code points of the class in the source, so the row is not matched. *)
Theorem C5_audio_engine_row_gives_no_record w :
  serve_status (with_document w audio_engine_row) =
  Json (StatusJson [] (now_isoformat w)).
Proof.
  unfold serve_status, parse_modules. cbn [with_document read_module_status bind].
  replace (findall pattern audio_engine_row) with (@nil (list str))
    by (vm_compute; reflexivity).
  reflexivity.
Qed.

(** With the class read as the glyphs it encodes, the row gives the record
    the specification describes. *)
Lemma audio_engine_row_decoded :
  findall (pattern_over decoded_glyphs) audio_engine_row =
  [[lit "2"; lit "Audio Engine"; [0x1F7E1%N]; lit "In Progress"; lit "45"]].
Proof. vm_compute. reflexivity. Qed.

Lemma audio_engine_entry_decoded :
  module_entry (bare_world audio_engine_row)
    [lit "2"; lit "Audio Engine"; [0x1F7E1%N]; lit "In Progress"; lit "45"] =
  Ok (lit "2",
      {| name := lit "Audio Engine";
         status := [0x1F7E1%N];
         status_text := lit "In Progress";
         progress := 45;
         commits := 0;
         lastActive := lit "Never" |}).
Proof. vm_compute. reflexivity. Qed.

(** *** Duplicate module numbers *)

Lemma last_entry w module_num : forall matches kvs,
  Forall2 (fun m kv => module_entry w m = Ok kv) matches kvs ->
  match find (fun m => PyStr.eqb (module_num_of m) module_num) matches with
  | Some m =>
      exists info,
        dict_get module_num kvs = Some info /\
        module_entry w m = Ok (module_num, info)
  | None => dict_get module_num kvs = None
  end.
Proof.
  induction 1 as [|m [k info] ms kvs Hm _ IH]; simpl; [reflexivity|].
  pose proof (module_entry_key w m _ Hm) as Hk. simpl in Hk. subst k.
  destruct (PyStr.eqb (module_num_of m) module_num) eqn:E.
  - apply eqb_eq in E. rewrite <- E, eqb_refl. now exists info.
  - assert (E' : PyStr.eqb module_num (module_num_of m) = false).
    { apply eqb_neq. apply eqb_neq in E. congruence. }
    now rewrite E'.
Qed.

Lemma Forall2_rev {A B} (R : A -> B -> Prop) : forall l1 l2,
  Forall2 R l1 l2 -> Forall2 R (rev l1) (rev l2).
Proof.
  induction 1; simpl; [constructor|].
  apply Forall2_app; [assumption|]. now repeat constructor.
Qed.

(** The value under a key of the snapshot is the record of the last row
    that carries the key. *)
Lemma snapshot_lookup w content kvs module_num :
  entries w (findall pattern content) = Ok kvs ->
  In module_num (map module_num_of (findall pattern content)) ->
  exists m info,
    last_row module_num (findall pattern content) = Some m /\
    module_entry w m = Ok (module_num, info) /\
    dict_get module_num (assign_all [] kvs) = Some info.
Proof.
  intros Hent Hin.
  apply entries_Forall2, Forall2_rev in Hent.
  pose proof (last_entry w module_num _ _ Hent) as Hlast.
  unfold last_row.
  destruct (find _ (rev (findall pattern content))) as [m|] eqn:Ef.
  - destruct Hlast as (info & Hget & Hm). exists m, info.
    repeat split; trivial.
    rewrite dict_get_assign_all. now rewrite Hget.
  - exfalso. apply in_map_iff in Hin. destruct Hin as (m & Hm & Hin).
    apply in_rev in Hin.
    apply (find_none _ _ Ef) in Hin. simpl in Hin.
    rewrite Hm, eqb_refl in Hin. discriminate.
Qed.

(** C10: when one or more rows of the document carry the module number
    [module_num], the snapshot has exactly one entry under that key, and it
    is the record of the last of those rows in document order. *)
Theorem C10_last_row_wins w modules updated content module_num :
  read_module_status w = Ok content ->
  serve_status w = Json (StatusJson modules updated) ->
  In module_num (map module_num_of (findall pattern content)) ->
  count_occ (list_eq_dec N.eq_dec) (keys modules) module_num = 1 /\
  exists m info,
    last_row module_num (findall pattern content) = Some m /\
    module_entry w m = Ok (module_num, info) /\
    dict_get module_num modules = Some info.
Proof.
  intros Hread H Hin. apply serve_status_inv in H.
  destruct H as (content' & kvs & Hread' & Hent & -> & _).
  rewrite Hread in Hread'. injection Hread' as <-.
  pose proof (entries_keys w _ _ Hent) as Hkeys.
  split.
  - rewrite keys_snapshot, Hkeys.
    apply NoDup_count_occ'.
    + apply first_occurrences_NoDup.
    + now apply first_occurrences_In.
  - now apply snapshot_lookup.
Qed.

Lemma C10_last_row_wins_witness :
  count_occ (list_eq_dec N.eq_dec)
    (keys [(lit "3", mixer_info); (lit "4", effects_info)]) (lit "3") = 1 /\
  exists m info,
    last_row (lit "3") (findall pattern (join LF duplicate_rows)) = Some m /\
    module_entry (bare_world (join LF duplicate_rows)) m
      = Ok (lit "3", info) /\
    dict_get (lit "3") [(lit "3", mixer_info); (lit "4", effects_info)]
      = Some info.
Proof.
  apply (C10_last_row_wins (bare_world (join LF duplicate_rows))
           [(lit "3", mixer_info); (lit "4", effects_info)]
           (now_isoformat (bare_world (join LF duplicate_rows)))
           (join LF duplicate_rows) (lit "3")).
  - reflexivity.
  - vm_compute. reflexivity.
  - vm_compute. left. reflexivity.
Defined.

(** *** Lines without a match *)

Lemma no_glyph_no_match glyphs line :
  (forall c, In c line -> one_of glyphs c = false) ->
  findall (pattern_over glyphs) line = [].
Proof.
  intros Hfree.
  destruct (findall (pattern_over glyphs) line) as [|m ms] eqn:E;
    [reflexivity|exfalso].
  destruct (findall_located (pattern_over glyphs) line m
              (pattern_over_consuming glyphs))
    as (t & b & a & Hd & Hs); [rewrite E; now left|].
  apply derives_table_row in Hd.
  destruct Hd as [num nm gl tx pc _ _ _ _ Hgl _ _ _ _].
  rewrite (Hfree gl) in Hgl; [discriminate|].
  rewrite Hs. apply in_or_app. right. apply in_or_app. left.
  rewrite !in_app_iff. do 5 right. left. now left.
Qed.

Lemma unmatched_line_dropped before line after :
  findall pattern line = [] ->
  findall pattern (join LF (before ++ line :: after)) =
  findall pattern (join LF (before ++ after)).
Proof.
  intros Hno.
  rewrite !(findall_join pattern pattern_single_line
                         (pattern_over_consuming _)).
  rewrite !map_app, !concat_app. simpl. now rewrite Hno.
Qed.

(** C7: a line on which the pattern finds no match, as is every line that
    holds none of the code points of the glyph class, gives no record and
    raises nothing, and the answer of the handler is the one it gives for
    the document without that line. *)
Theorem C7_unmatched_line_is_skipped w before line after :
  findall pattern line = [] \/
  (forall c, In c line -> one_of status_glyphs c = false) ->
  parse_modules w line = Ok [] /\
  serve_status (with_document w (join LF (before ++ line :: after))) =
  serve_status (with_document w (join LF (before ++ after))).
Proof.
  intros H.
  assert (Hno : findall pattern line = []).
  { destruct H as [H|H]; [assumption|]. now apply no_glyph_no_match. }
  split.
  - unfold parse_modules. now rewrite Hno.
  - unfold serve_status, parse_modules.
    cbn [with_document read_module_status now_isoformat bind].
    rewrite !fill_modules_with_document.
    now rewrite unmatched_line_dropped.
Qed.

Lemma C7_unmatched_line_witness :
  parse_modules (bare_world []) purple_row = Ok [] /\
  serve_status (with_document (bare_world [])
                  (join LF (duplicate_rows ++ purple_row :: [overfull_row]))) =
  serve_status (with_document (bare_world [])
                  (join LF (duplicate_rows ++ [overfull_row]))).
Proof.
  apply (C7_unmatched_line_is_skipped (bare_world []) duplicate_rows
           purple_row [overfull_row]).
  right. intros c Hc. vm_compute in Hc.
  repeat (destruct Hc as [<-|Hc]; [vm_compute; reflexivity|]).
  contradiction.
Defined.

(** *** The same text, parsed twice *)







(** *** Modules without a repository *)

Lemma probe_fails_commits w module_num :
  probe_fails w module_num -> get_module_commits w module_num = 0%Z.
Proof.
  unfold get_module_commits.
  intros [Hdir|(c & l & Hc & Hrc & _ & _)].
  - now rewrite Hdir.
  - destruct (path_exists w (module_dir module_num)); [|reflexivity].
    rewrite Hc. cbn [bind].
    apply Z.eqb_neq in Hrc. now rewrite Hrc.
Qed.

Lemma probe_fails_last_activity w module_num :
  probe_fails w module_num -> get_last_activity w module_num = lit "Never".
Proof.
  unfold get_last_activity.
  intros [Hdir|(c & l & _ & _ & Hl & Hrl)].
  - now rewrite Hdir.
  - destruct (path_exists w (module_dir module_num)); [|reflexivity].
    rewrite Hl. cbn [bind].
    apply Z.eqb_neq in Hrl. now rewrite Hrl.
Qed.

(** Every match within the limit of [int()] gives an entry, whatever the
    probes answer. *)
Lemma entries_total w content :
  within_int_limit w content ->
  forall matches, incl matches (findall pattern content) ->
  exists kvs, entries w matches = Ok kvs.
Proof.
  intros Hlim. induction matches as [|m rest IH]; intros Hincl.
  - now exists [].
  - assert (Hin : In m (findall pattern content)) by (apply Hincl; now left).
    destruct IH as (kvs & Hkvs); [intros x Hx; apply Hincl; now right|].
    specialize (Hlim m Hin).
    destruct (findall_derives pattern content m (pattern_over_consuming _) Hin)
      as (t & Hd).
    apply derives_table_row in Hd.
    destruct Hd as [num nm gl tx pc _ _ _ _ _ _ _ Hpc Hdigits].
    cbn [nth] in Hlim. cbn [entries]. unfold module_entry. cbn [unpack5 bind].
    rewrite (int_digits _ _ Hpc Hdigits).
    destruct (limit_value (int_max_str_digits w)) as [l|].
    + apply Nat.ltb_ge in Hlim. rewrite Hlim. cbn [bind]. rewrite Hkvs.
      cbn [bind]. eauto.
    + cbn [bind]. rewrite Hkvs. cbn [bind]. eauto.
Qed.

Lemma serve_status_entries w content kvs :
  read_module_status w = Ok content ->
  entries w (findall pattern content) = Ok kvs ->
  serve_status w = Json (StatusJson (assign_all [] kvs) (now_isoformat w)).
Proof.
  intros Hread Hent. unfold serve_status, parse_modules.
  rewrite Hread. cbn [bind]. rewrite fill_modules_entries, Hent. reflexivity.
Qed.

(** C4: when the directory of a module is missing, or its history queries
    end with a non-zero exit status, [get_module_commits] returns 0 and
    [get_last_activity] returns "Never"; and when the document has a row
    for the module (and no percentage too long for [int()]), the handler
    answers with a snapshot that holds the record of the module with those
    two values. *)
Theorem C4_probe_failure_gives_defaults w module_num :
  probe_fails w module_num ->
  get_module_commits w module_num = 0%Z /\
  get_last_activity w module_num = lit "Never" /\
  forall content,
    read_module_status w = Ok content ->
    within_int_limit w content ->
    In module_num (map module_num_of (findall pattern content)) ->
    exists modules info,
      serve_status w = Json (StatusJson modules (now_isoformat w)) /\
      dict_get module_num modules = Some info /\
      commits info = 0%Z /\
      lastActive info = lit "Never".
Proof.
  intros Hfail.
  pose proof (probe_fails_commits w module_num Hfail) as Hc.
  pose proof (probe_fails_last_activity w module_num Hfail) as Hl.
  repeat split; trivial.
  intros content Hread Hlim Hin.
  destruct (entries_total w content Hlim (findall pattern content))
    as (kvs & Hkvs); [apply incl_refl|].
  destruct (snapshot_lookup w content kvs module_num Hkvs Hin)
    as (m & info & _ & Hm & Hget).
  exists (assign_all [] kvs), info.
  split; [now apply (serve_status_entries w content)|]. split; [assumption|].
  apply module_entry_inv in Hm.
  destruct Hm as (num & nm & gl & tx & pc & p & _ & _ & E).
  injection E as <- ->. simpl. auto.
Qed.

Lemma C4_probe_failure_witness :
  get_module_commits (bare_world (join LF duplicate_rows)) (lit "4") = 0%Z /\
  get_last_activity (bare_world (join LF duplicate_rows)) (lit "4")
    = lit "Never" /\
  exists modules info,
    serve_status (bare_world (join LF duplicate_rows)) =
      Json (StatusJson modules
              (now_isoformat (bare_world (join LF duplicate_rows)))) /\
    dict_get (lit "4") modules = Some info /\
    commits info = 0%Z /\
    lastActive info = lit "Never".
Proof.
  destruct (C4_probe_failure_gives_defaults
              (bare_world (join LF duplicate_rows)) (lit "4"))
    as (Hc & Hl & Hs).
  - left. reflexivity.
  - split; [exact Hc|]. split; [exact Hl|].
    apply (Hs (join LF duplicate_rows)).
    + reflexivity.
    + intros m Hm. vm_compute in Hm.
      repeat (destruct Hm as [<-|Hm]; [vm_compute; lia|]). contradiction.
    + vm_compute. right. left. reflexivity.
Defined.

(** *** An unreadable document *)

(** C8: when the status document cannot be read, the route [/api/status]
    answers HTTP 500 with the text of the error, and no snapshot. *)
Theorem C8_unreadable_document_gives_500 w e :
  read_module_status w = Raise e ->
  do_GET w (lit "/api/status") = Error 500 (Some e) /\
  serve_status w = Error 500 (Some e) /\
  forall b, do_GET w (lit "/api/status") <> Json b.
Proof.
  intros H.
  assert (Hs : serve_status w = Error 500 (Some e))
    by (unfold serve_status; now rewrite H).
  assert (Hg : do_GET w (lit "/api/status") = serve_status w) by reflexivity.
  rewrite Hg, Hs. repeat split. discriminate.
Qed.

Lemma C8_unreadable_document_witness :
  do_GET no_document_world (lit "/api/status") =
    Error 500 (Some (OSError
      (lit "[Errno 2] No such file or directory: 'MODULE_STATUS.md'"))) /\
  serve_status no_document_world =
    Error 500 (Some (OSError
      (lit "[Errno 2] No such file or directory: 'MODULE_STATUS.md'"))) /\
  forall b, do_GET no_document_world (lit "/api/status") <> Json b.
Proof.
  apply (C8_unreadable_document_gives_500 no_document_world). reflexivity.
Defined.

End ParserClaims.

(** ** The commit list *)

Module TimelineClaims.

Lemma blank_line_segments line : strip line = [] -> split 2 line = [].
Proof. intros H. apply split_blank. now apply strip_nil_iff. Qed.

(** One turn of the loop appends an entry exactly when the line splits into
    two segments or more. *)
Lemma append_commit_eq commit_list line :
  append_commit commit_list line =
  if two_segments line then
    commit_list ++
    [{| hash := firstn 7 (nth 1 (split 2 line) []);
        message := if (2 <? List.length (split 2 line))%nat
                   then nth 2 (split 2 line) [] else line;
        time := [] |}]
  else commit_list.
Proof.
  unfold append_commit, two_segments.
  destruct (strip line) as [|c s] eqn:E.
  - now rewrite (blank_line_segments line E).
  - destruct (2 <=? List.length (split 2 line))%nat eqn:E2; [|reflexivity].
    apply Nat.leb_le in E2.
    assert (E1 : (1 <? List.length (split 2 line))%nat = true)
      by (apply Nat.ltb_lt; lia).
    now rewrite E1.
Qed.

Lemma lstrip_head s c s' : lstrip s = c :: s' -> isspace c = false.
Proof.
  unfold lstrip. induction s as [|x s IH]; simpl; [discriminate|].
  destruct (isspace x) eqn:E; [assumption|].
  intros H. injection H as <- _. assumption.
Qed.

Lemma word_head c s :
  isspace c = false -> exists w rest, word (c :: s) = (c :: w, rest).
Proof.
  intros H. simpl. rewrite H. destruct (word s) as [w rest]. now exists w, rest.
Qed.

(** The second segment of a line, when there is one, is not empty. *)
Lemma second_segment_not_empty line :
  two_segments line = true -> nth 1 (split 2 line) [] <> [].
Proof.
  unfold two_segments. rewrite (split_eq 2 line).
  destruct (lstrip line) as [|c s] eqn:E; [discriminate|].
  destruct (word (c :: s)) as [w rest].
  rewrite (split_eq 1 rest).
  destruct (lstrip rest) as [|c' s'] eqn:E'; [discriminate|].
  destruct (word_head c' s' (lstrip_head _ _ _ E')) as (w' & rest' & ->).
  intros _. simpl. discriminate.
Qed.

(** C2, as the code has it: a line splits into at most three segments; a
    line of fewer than two segments gives no entry; a line of two segments
    gives an entry whose hash is the first seven code points of the second
    segment and whose message is the whole line; a line of three segments
    gives an entry whose message is the third segment; the hash of an entry
    is never empty. *)
Theorem C2_segments_and_entries commit_list line :
  List.length (split 2 line) <= 3 /\
  (List.length (split 2 line) < 2 ->
   append_commit commit_list line = commit_list) /\
  (List.length (split 2 line) = 2 ->
   append_commit commit_list line =
   commit_list ++ [{| hash := firstn 7 (nth 1 (split 2 line) []);
                      message := line;
                      time := [] |}]) /\
  (List.length (split 2 line) = 3 ->
   append_commit commit_list line =
   commit_list ++ [{| hash := firstn 7 (nth 1 (split 2 line) []);
                      message := nth 2 (split 2 line) [];
                      time := [] |}]) /\
  (2 <= List.length (split 2 line) ->
   firstn 7 (nth 1 (split 2 line) []) <> []).
Proof.
  split; [apply split_length|].
  rewrite append_commit_eq. unfold two_segments.
  repeat split.
  - intros H. apply Nat.leb_gt in H. now rewrite H.
  - intros H. now rewrite H.
  - intros H. now rewrite H.
  - intros H. apply Nat.leb_le in H.
    pose proof (second_segment_not_empty line H) as Hne.
    destruct (nth 1 (split 2 line) []); [congruence|discriminate].
Qed.

Lemma C2_segments_and_entries_witness :
  append_commit [] (lit "|\  ") = [] /\
  append_commit [] (lit "* dac044f") =
    [{| hash := lit "dac044f"; message := lit "* dac044f"; time := [] |}] /\
  append_commit [] (lit "* dac044f init") =
    [{| hash := lit "dac044f"; message := lit "init"; time := [] |}] /\
  firstn 7 (nth 1 (split 2 (lit "* dac044f init")) []) <> [].
Proof.
  split; [|split; [|split]].
  - apply (C2_segments_and_entries [] (lit "|\  ")). vm_compute. lia.
  - apply (C2_segments_and_entries [] (lit "* dac044f")). reflexivity.
  - apply (C2_segments_and_entries [] (lit "* dac044f init")). reflexivity.
  - apply (C2_segments_and_entries [] (lit "* dac044f init")).
    vm_compute. lia.
Defined.

(** C2 as stated fails: the graph line [|\  ] has one segment and gives no
    entry. *)
Lemma C2_single_segment_line_dropped :
  ~ (forall line,
       List.length (split 2 line) < 2 ->
       append_commit [] line =
       [{| hash := []; message := line; time := [] |}]).
Proof.
  intros H. specialize (H (lit "|\  ")).
  assert (Hlen : List.length (split 2 (lit "|\  ")) < 2) by (vm_compute; lia).
  specialize (H Hlen). vm_compute in H. discriminate H.
Qed.

(** *** When [git] fails *)

(** C3, as the code has it: once [subprocess.run] has returned, the
    handler answers with a success response that holds the commits parsed
    from the output, whatever the exit status, hence the empty list when a
    failing command has printed nothing; when [subprocess.run] raises,
    because the process cannot be spawned or its output cannot be decoded,
    the handler calls [send_error(500, str(e))]: an HTTP 500 with the text
    of the error when that text can be encoded in Latin-1, and otherwise a
    status line that cannot be encoded, so that no 500 is sent. *)
Theorem C3_failure_of_git w cwd :
  getcwd w = Ok cwd ->
  (forall p,
     subprocess_run w git_log_argv cwd = Ok p ->
     serve_git_activity w = Json (GitJson (parse_git_log (stdout p)))) /\
  (forall p,
     subprocess_run w git_log_argv cwd = Ok p ->
     returncode p <> 0%Z -> stdout p = [] ->
     serve_git_activity w = Json (GitJson [])) /\
  (forall e,
     subprocess_run w git_log_argv cwd = Raise e ->
     text_is_latin1 e = true ->
     serve_git_activity w = Error 500 (Some e)) /\
  (forall e,
     subprocess_run w git_log_argv cwd = Raise e ->
     text_is_latin1 e = false ->
     serve_git_activity w = Unencodable 500 e).
Proof.
  intros Hcwd. unfold serve_git_activity. rewrite Hcwd. cbn [bind].
  split; [|split; [|split]].
  - intros p ->. reflexivity.
  - intros p -> _ Hout. cbn [bind]. now rewrite Hout.
  - intros e -> He. cbn [bind]. unfold send_error. now rewrite He.
  - intros e -> He. cbn [bind]. unfold send_error. now rewrite He.
Qed.

Lemma C3_failure_of_git_witness :
  serve_git_activity (git_world 128 []) = Json (GitJson []) /\
  serve_git_activity (bare_world []) =
    Error 500
      (Some (OSError (lit "[Errno 2] No such file or directory: 'git'"))) /\
  serve_git_activity gone_cwd_world =
    Unencodable 500
      (OSError (lit "[Errno 2] No such file or directory: '/srv/" ++
                [0x6570; 0x636E]%N ++ lit "'")).
Proof.
  split; [|split].
  - apply (C3_failure_of_git (git_world 128 []) (lit "/srv/dawg-ai") eq_refl)
      with (p := {| returncode := 128; stdout := [] |}).
    + reflexivity.
    + simpl. lia.
    + reflexivity.
  - apply (C3_failure_of_git (bare_world []) (lit "/srv/dawg-ai") eq_refl).
    + reflexivity.
    + vm_compute. reflexivity.
  - apply (C3_failure_of_git gone_cwd_world
             (lit "/srv/" ++ [0x6570; 0x636E]%N) eq_refl).
    + reflexivity.
    + vm_compute. reflexivity.
Defined.

(** Output that cannot be decoded is a failure of [subprocess.run] too,
    and is answered with HTTP 500. *)
Lemma undecodable_output_gives_500 :
  serve_git_activity undecodable_world =
  Error 500 (Some (UnicodeDecodeError (lit "invalid start byte"))).
Proof. vm_compute. reflexivity. Qed.

(** C3 as stated fails: when [git] cannot be spawned the answer is an error
    response. *)
Lemma C3_spawn_failure_is_an_error :
  ~ (forall w cwd e,
       getcwd w = Ok cwd ->
       subprocess_run w git_log_argv cwd = Raise e ->
       serve_git_activity w = Json (GitJson [])).
Proof.
  intros H.
  specialize (H (bare_world []) (lit "/srv/dawg-ai") _ eq_refl eq_refl).
  vm_compute in H. discriminate H.
Qed.

(** *** How many entries *)

Lemma fold_append_commit_length : forall lines commit_list,
  List.length (fold_left append_commit lines commit_list) =
  List.length commit_list + List.length (filter two_segments lines).
Proof.
  induction lines as [|l lines IH]; intros commit_list; simpl; [lia|].
  rewrite IH, append_commit_eq.
  destruct (two_segments l); simpl; [rewrite length_app; simpl|]; lia.
Qed.

Lemma parse_git_log_length out :
  List.length (parse_git_log out) =
  List.length (filter two_segments (split_on LF out)).
Proof. unfold parse_git_log. now rewrite fold_append_commit_length. Qed.

Lemma split_on_three_lines l1 l2 l3 :
  ~ In LF l1 -> ~ In LF l2 -> ~ In LF l3 ->
  split_on LF (join LF [l1; l2; l3; []]) = [l1; l2; l3; []].
Proof.
  intros H1 H2 H3. cbn [join].
  now rewrite !split_on_app by assumption.
Qed.

(** The commit list has one entry for each line of the output that splits
    into two segments or more, and no cap of its own; for an output of three
    commit lines it has 3 entries. *)
Lemma one_entry_per_line_of_two_segments w cwd p :
  getcwd w = Ok cwd ->
  subprocess_run w git_log_argv cwd = Ok p ->
  exists commit_list,
    serve_git_activity w = Json (GitJson commit_list) /\
    List.length commit_list =
      List.length (filter two_segments (split_on LF (stdout p))) /\
    (forall l1 l2 l3,
       stdout p = join LF [l1; l2; l3; []] ->
       ~ In LF l1 -> ~ In LF l2 -> ~ In LF l3 ->
       two_segments l1 = true -> two_segments l2 = true ->
       two_segments l3 = true ->
       List.length commit_list = 3).
Proof.
  intros Hcwd Hrun. exists (parse_git_log (stdout p)).
  split; [|split].
  - unfold serve_git_activity. rewrite Hcwd. cbn [bind]. now rewrite Hrun.
  - apply parse_git_log_length.
  - intros l1 l2 l3 Hout N1 N2 N3 T1 T2 T3.
    rewrite parse_git_log_length, Hout, split_on_three_lines by assumption.
    cbn [filter]. rewrite T1, T2, T3. reflexivity.
Qed.

(** A history of three commits gives three entries. *)
Lemma three_commits_three_entries :
  serve_git_activity (git_world 0 (join LF (three_commits ++ [[]]))) =
  Json (GitJson
    [{| hash := lit "5d5e797"; message := lit "(main) one"; time := [] |};
     {| hash := lit "6402fdb"; message := lit "(o2) two"; time := [] |};
     {| hash := lit "51fa43d"; message := lit "(HEAD -> o3) three";
        time := [] |}]).
Proof. vm_compute. reflexivity. Qed.

(** C6, on the code: for a history with merges, [git log --graph -15]
    prints fifteen commits and, between them, the lines that draw the
    graph; those of two segments or more become entries as well, and the
    commit list has 21 entries, six more than the bound of 15. *)
Theorem C6_merge_graph_gives_21_entries :
  serve_git_activity (git_world 0 (join LF merge_graph)) =
    Json (GitJson (parse_git_log (join LF merge_graph))) /\
  List.length (parse_git_log (join LF merge_graph)) = 21 /\
  List.length (filter (fun l => mem 0x2A%N l) merge_graph) = 15 /\
  In {| hash := [0x7C; 0x5C]%N; message := lit "| |\  "; time := [] |}
     (parse_git_log (join LF merge_graph)).
Proof.
  split; [reflexivity|]. split; [vm_compute; reflexivity|].
  split; [vm_compute; reflexivity|].
  vm_compute. do 3 right. left. reflexivity.
Qed.

(** Hence no bound of 15 holds of the list for every repository. *)
Lemma more_than_15_entries :
  ~ (forall w commit_list,
       serve_git_activity w = Json (GitJson commit_list) ->
       List.length commit_list <= 15).
Proof.
  intros H.
  specialize (H (git_world 0 (join LF merge_graph))
                (parse_git_log (join LF merge_graph)) eq_refl).
  vm_compute in H. lia.
Qed.

End TimelineClaims.

(** * Further properties of the handlers *)

(** ** More on strings *)

Module PyStrMore.

Lemma lstrip_by_idem sp s : lstrip_by sp (lstrip_by sp s) = lstrip_by sp s.
Proof.
  induction s as [|c s IH]; [reflexivity|]. simpl.
  destruct (sp c) eqn:E; [assumption|]. simpl. now rewrite E.
Qed.

Lemma lstrip_by_spaces sp a b :
  forallb sp a = true -> lstrip_by sp (a ++ b) = lstrip_by sp b.
Proof.
  induction a as [|c a IH]; simpl; [reflexivity|].
  intros H. apply andb_true_iff in H. destruct H as [Hc Ha].
  rewrite Hc. now apply IH.
Qed.

Lemma lstrip_by_keeps_last sp a c :
  sp c = false -> exists l, lstrip_by sp (a ++ [c]) = l ++ [c].
Proof.
  intros Hc. induction a as [|x a IH]; simpl.
  - rewrite Hc. now exists [].
  - destruct (sp x); [assumption|]. now exists (x :: a).
Qed.

(** [s.strip()] has nothing left to strip. *)
Lemma strip_by_idem sp s : strip_by sp (strip_by sp s) = strip_by sp s.
Proof.
  unfold strip_by, rstrip_by.
  remember (lstrip_by sp s) as t eqn:Ht.
  assert (Hfix : lstrip_by sp t = t) by (subst; apply lstrip_by_idem).
  destruct t as [|c t'].
  - reflexivity.
  - assert (Hc : sp c = false).
    { simpl in Hfix. destruct (sp c) eqn:E; [|reflexivity].
      exfalso. clear - Hfix E.
      assert (Hlen : List.length (lstrip_by sp t') <= List.length t').
      { clear. induction t' as [|x t IH]; simpl; [lia|].
        destruct (sp x); simpl; lia. }
      rewrite Hfix in Hlen. simpl in Hlen. lia. }
    simpl rev.
    destruct (lstrip_by_keeps_last sp (rev t') c Hc) as (l & Hl).
    rewrite Hl, rev_app_distr. simpl.
    rewrite Hc. simpl. rewrite rev_involutive, <- Hl.
    rewrite lstrip_by_idem, Hl, rev_app_distr. reflexivity.
Qed.

Lemma strip_idem s : strip (strip s) = strip s.
Proof. apply strip_by_idem. Qed.

(** Digits followed by whitespace, stripped, are the digits. *)
Lemma strip_word_spaces w ws :
  w <> [] -> forallb (fun c => negb (isspace c)) w = true ->
  forallb isspace ws = true ->
  strip (w ++ ws) = w.
Proof.
  intros Hne Hw Hws. unfold strip, strip_by, rstrip_by.
  assert (Hl : forall u, u <> [] ->
            forallb (fun c => negb (isspace c)) u = true ->
            forall v, lstrip_by isspace (u ++ v) = u ++ v).
  { intros u Hu Hall v. destruct u as [|c u]; [congruence|].
    simpl in Hall. apply andb_true_iff in Hall. destruct Hall as [Hc _].
    apply negb_true_iff in Hc. simpl. now rewrite Hc. }
  rewrite Hl by assumption.
  rewrite rev_app_distr, lstrip_by_spaces by now rewrite forallb_rev.
  rewrite <- (app_nil_r (rev w)), Hl.
  - rewrite app_nil_r. apply rev_involutive.
  - intros E. apply (f_equal (@rev _)) in E. rewrite rev_involutive in E.
    now apply Hne.
  - now rewrite forallb_rev.
Qed.

Lemma word_spec : forall s w rest,
  word s = (w, rest) ->
  s = w ++ rest /\
  forallb (fun c => negb (isspace c)) w = true /\
  (rest = [] \/ exists c rest', rest = c :: rest' /\ isspace c = true).
Proof.
  induction s as [|c s IH]; simpl; intros w rest H.
  - injection H as <- <-. auto.
  - destruct (isspace c) eqn:E.
    + injection H as <- <-. repeat split; trivial. right. eauto.
    + destruct (word s) as [w' rest'] eqn:Ew. injection H as <- <-.
      destruct (IH w' rest' eq_refl) as (-> & Hw & Hr).
      repeat split; trivial. simpl. now rewrite E.
Qed.

Lemma word_app w c rest :
  forallb (fun c => negb (isspace c)) w = true -> isspace c = true ->
  word (w ++ c :: rest) = (w, c :: rest).
Proof.
  intros Hw Hc. induction w as [|x w IH]; simpl.
  - now rewrite Hc.
  - simpl in Hw. apply andb_true_iff in Hw. destruct Hw as [Hx Hw].
    apply negb_true_iff in Hx. rewrite Hx, IH by assumption. reflexivity.
Qed.

Lemma lstrip_incl s c : In c (lstrip s) -> In c s.
Proof. apply lstrip_by_incl. Qed.

(** The segments of a line are made of its code points. *)
Lemma split_incl : forall n s part c,
  In part (split n s) -> In c part -> In c s.
Proof.
  induction n as [|n IH]; intros s part c Hp Hc; rewrite split_eq in Hp.
  - destruct (lstrip s) as [|x s'] eqn:E; [contradiction|].
    destruct Hp as [<-|[]]. apply lstrip_incl. now rewrite E.
  - destruct (lstrip s) as [|x s'] eqn:E; [contradiction|].
    destruct (word (x :: s')) as [w rest] eqn:Ew.
    apply word_spec in Ew. destruct Ew as (Hs & _ & _).
    apply lstrip_incl. rewrite E, Hs. apply in_or_app.
    destruct Hp as [<-|Hp]; [now left|].
    right. now apply (IH rest part c).
Qed.

Lemma split_on_incl sep : forall s l c,
  In l (split_on sep s) -> In c l -> In c s.
Proof.
  induction s as [|x s IH]; simpl; intros l c Hl Hc.
  - destruct Hl as [<-|[]]. contradiction.
  - destruct (x =? sep)%N.
    + destruct Hl as [<-|Hl]; [contradiction|]. right. now apply (IH l c).
    + destruct (split_on sep s) as [|l0 ls] eqn:E.
      * destruct Hl as [<-|[]]. destruct Hc as [<-|[]]. now left.
      * destruct Hl as [<-|Hl].
        -- destruct Hc as [<-|Hc]; [now left|].
           right. apply (IH l0 c); [now left|assumption].
        -- right. apply (IH l c); [now right|assumption].
Qed.

(** No line holds the separator. *)
Lemma split_on_no_sep sep : forall s l,
  In l (split_on sep s) -> ~ In sep l.
Proof.
  induction s as [|x s IH]; simpl; intros l Hl.
  - destruct Hl as [<-|[]]. tauto.
  - destruct (x =? sep)%N eqn:Ex.
    + destruct Hl as [<-|Hl]; [tauto|]. now apply IH.
    + apply N.eqb_neq in Ex.
      destruct (split_on sep s) as [|l0 ls] eqn:E.
      * destruct Hl as [<-|[]]. simpl. intuition.
      * destruct Hl as [<-|Hl].
        -- simpl. intros [H|H]; [congruence|].
           apply (IH l0); [now left|assumption].
        -- apply IH. now right.
Qed.

(** Splitting at a separator, whatever stands before it. *)
Lemma split_on_cut sep a b :
  split_on sep (a ++ sep :: b) =
  removelast (split_on sep a) ++
  (last (split_on sep a) []) :: split_on sep b.
Proof.
  induction a as [|x a IH]; simpl.
  - now rewrite N.eqb_refl.
  - destruct (x =? sep)%N.
    + rewrite IH. destruct (split_on sep a) eqn:E.
      * now destruct (split_on_not_nil sep a).
      * reflexivity.
    + rewrite IH. destruct (split_on sep a) as [|l0 ls] eqn:E.
      * now destruct (split_on_not_nil sep a).
      * destruct ls; reflexivity.
Qed.

Lemma split_on_lines sep a b :
  split_on sep (a ++ sep :: b) = split_on sep a ++ split_on sep b.
Proof.
  rewrite split_on_cut.
  pose proof (split_on_not_nil sep a) as Hne.
  rewrite (app_removelast_last [] Hne) at 3.
  now rewrite <- app_assoc.
Qed.

Lemma split_on_join sep : forall lines,
  lines <> [] -> (forall l, In l lines -> ~ In sep l) ->
  split_on sep (join sep lines) = lines.
Proof.
  induction lines as [|l lines IH]; intros Hne Hfree; [congruence|].
  destruct lines as [|l' lines].
  - simpl. apply split_on_single. apply Hfree. now left.
  - change (join sep (l :: l' :: lines))
      with (l ++ sep :: join sep (l' :: lines)).
    rewrite split_on_app by (apply Hfree; now left).
    rewrite IH; [reflexivity|discriminate|].
    intros x Hx. apply Hfree. now right.
Qed.

Lemma split_on_length sep : forall s,
  List.length (split_on sep s) = S (count_occ N.eq_dec s sep).
Proof.
  induction s as [|x s IH]; simpl; [reflexivity|].
  destruct (N.eq_dec x sep) as [->|Hne].
  - rewrite N.eqb_refl. simpl. now rewrite IH.
  - apply N.eqb_neq in Hne. rewrite Hne.
    destruct (split_on sep s); simpl in *; lia.
Qed.

End PyStrMore.

Import PyStrMore.

(** ** More on [serve_status] *)

Module StatusCoverage.

(** What a record of a snapshot is made of: the five fields of a table
    row. *)
Lemma record_fields w modules updated k info :
  serve_status w = Json (StatusJson modules updated) ->
  In (k, info) modules ->
  exists t nm gl tx pc,
    table_row status_glyphs t [k; nm; [gl]; tx; pc] /\
    info = record_of w k nm gl tx pc.
Proof.
  intros H Hin.
  destruct (ParserClaims.record_origin w modules updated k info H Hin)
    as (content & m & _ & Hm & He).
  destruct (findall_derives pattern content m (pattern_over_consuming _) Hm)
    as (t & Hd).
  apply derives_table_row in Hd.
  apply module_entry_inv in He.
  destruct He as (num & nm & gl & tx & pc & p & -> & Hint & E).
  injection E as -> ->.
  inversion Hd as [num' nm' gl' tx' pc' H1 H2 H3 H4 H5 H6 H7 H8 H9 Ht Hg].
  subst. do 5 eexists. split; [exact Hd|].
  unfold record_of. f_equal.
  now apply (int_digits_nonneg (int_max_str_digits w) pc p).
Qed.

(** X1: the keys of a snapshot are pairwise distinct, each is a non-empty
    string of decimal digits, and the commits and last activity of a record
    are the answers of the two probes for its key. *)
Theorem X1_snapshot_keys w modules updated :
  serve_status w = Json (StatusJson modules updated) ->
  NoDup (keys modules) /\
  forall k info, In (k, info) modules ->
    is_digits k /\
    commits info = get_module_commits w k /\
    lastActive info = get_last_activity w k.
Proof.
  intros H. split.
  - apply serve_status_inv in H. destruct H as (c & kvs & _ & _ & -> & _).
    rewrite keys_snapshot. apply first_occurrences_NoDup.
  - intros k info Hin.
    destruct (record_fields w modules updated k info H Hin)
      as (t & nm & gl & tx & pc & Hrow & ->).
    inversion Hrow. subst. repeat split; assumption.
Qed.

Lemma X1_snapshot_keys_witness :
  NoDup (keys [(lit "3", mixer_info); (lit "4", effects_info)]) /\
  forall k info, In (k, info) [(lit "3", mixer_info); (lit "4", effects_info)] ->
    is_digits k /\
    commits info =
      get_module_commits (bare_world (join LF duplicate_rows)) k /\
    lastActive info =
      get_last_activity (bare_world (join LF duplicate_rows)) k.
Proof.
  apply (X1_snapshot_keys (bare_world (join LF duplicate_rows)) _
           (now_isoformat (bare_world (join LF duplicate_rows)))).
  vm_compute. reflexivity.
Defined.

(** X2: in every record of a snapshot the status is one code point of the
    class of the pattern, the name and the status text have no whitespace
    at either end and no line feed, and the progress is not negative. *)
Theorem X2_snapshot_fields w modules updated k info :
  serve_status w = Json (StatusJson modules updated) ->
  In (k, info) modules ->
  (exists g, status info = [g] /\ In g status_glyphs) /\
  stripped (name info) /\ stripped (status_text info) /\
  ~ In LF (name info) /\ ~ In LF (status_text info) /\
  (0 <= progress info)%Z.
Proof.
  intros H Hin.
  destruct (record_fields w modules updated k info H Hin)
    as (t & nm & gl & tx & pc & Hrow & ->).
  inversion Hrow as [num' nm' gl' tx' pc' H1 H2 H3 H4 H5 H6 H7 H8 H9 Ht Hg].
  subst. unfold record_of, stripped. simpl.
  assert (Hdot : forall s, forallb dot s = true -> ~ In LF (strip s)).
  { intros s Hs Hc. apply strip_by_incl in Hc.
    rewrite forallb_forall in Hs. specialize (Hs _ Hc).
    unfold dot in Hs. now rewrite N.eqb_refl in Hs. }
  split; [|split; [|split; [|split; [|split]]]].
  - exists gl. split; [reflexivity|].
    exact (proj1 (mem_In gl status_glyphs) H5).
  - apply strip_idem.
  - apply strip_idem.
  - now apply Hdot.
  - now apply Hdot.
  - apply N2Z.is_nonneg.
Qed.

Lemma X2_snapshot_fields_witness :
  (exists g, status mixer_info = [g] /\ In g status_glyphs) /\
  stripped (name mixer_info) /\ stripped (status_text mixer_info) /\
  ~ In LF (name mixer_info) /\ ~ In LF (status_text mixer_info) /\
  (0 <= progress mixer_info)%Z.
Proof.
  apply (X2_snapshot_fields (bare_world (join LF duplicate_rows))
           [(lit "3", mixer_info); (lit "4", effects_info)]
           (now_isoformat (bare_world (join LF duplicate_rows)))
           (lit "3") mixer_info).
  - vm_compute. reflexivity.
  - left. reflexivity.
Defined.

(** *** When the handler fails *)

Lemma entries_raise w content : forall matches e,
  incl matches (findall pattern content) ->
  entries w matches = Raise e ->
  exists m l,
    In m matches /\
    limit_value (int_max_str_digits w) = Some l /\
    l < List.length (nth 4 m []) /\
    e = ValueError_exceeds_limit l (List.length (nth 4 m [])).
Proof.
  induction matches as [|m rest IH]; intros e Hincl H; [discriminate|].
  assert (Hin : In m (findall pattern content)) by (apply Hincl; now left).
  destruct (findall_derives pattern content m (pattern_over_consuming _) Hin)
    as (t & Hd).
  apply derives_table_row in Hd.
  destruct Hd as [num nm gl tx pc _ _ _ _ _ _ _ Hpc Hdigits].
  cbn [entries] in H. unfold module_entry in H. cbn [unpack5 bind] in H.
  rewrite (int_digits _ _ Hpc Hdigits) in H.
  destruct (limit_value (int_max_str_digits w)) as [l|] eqn:El.
  - destruct (Nat.ltb l (List.length pc)) eqn:E.
    + cbn [bind] in H. injection H as <-.
      exists [num; nm; [gl]; tx; pc], l. cbn [nth].
      apply Nat.ltb_lt in E. repeat split; trivial. now left.
    + cbn [bind] in H.
      destruct (entries w rest) as [kvs|e'] eqn:Er; [discriminate|].
      cbn [bind] in H. injection H as <-.
      destruct (IH e') as (m' & l' & Hm' & Hl' & Hlt & He);
        [intros x Hx; apply Hincl; now right|reflexivity|].
      exists m', l'. repeat split; trivial. now right.
  - cbn [bind] in H.
    destruct (entries w rest) as [kvs|e'] eqn:Er; [discriminate|].
    cbn [bind] in H. injection H as <-.
    destruct (IH e') as (m' & l' & Hm' & Hl' & Hlt & He);
      [intros x Hx; apply Hincl; now right|reflexivity|].
    discriminate.
Qed.

(** X3: [serve_status] fails in two ways only, both with HTTP 500: with
    the exception that reading the document raised, or, the document read,
    with the error of [int()] for a percentage that has more digits than
    the interpreter's limit.  Unpacking a match and converting its digits
    never fail otherwise. *)
Theorem X3_serve_status_errors w code detail :
  serve_status w = Error code detail ->
  code = 500%N /\
  exists e,
    detail = Some e /\
    (read_module_status w = Raise e \/
     exists content m l,
       read_module_status w = Ok content /\
       In m (findall pattern content) /\
       limit_value (int_max_str_digits w) = Some l /\
       l < List.length (nth 4 m []) /\
       e = ValueError_exceeds_limit l (List.length (nth 4 m []))).
Proof.
  unfold serve_status, parse_modules. intros H.
  destruct (read_module_status w) as [content|e] eqn:Er.
  - cbn [bind] in H. rewrite fill_modules_entries in H.
    destruct (entries w (findall pattern content)) as [kvs|e] eqn:Ee;
      [discriminate|].
    cbn [bind] in H. injection H as <- <-. split; [reflexivity|].
    exists e. split; [reflexivity|]. right.
    destruct (entries_raise w content _ e (incl_refl _) Ee)
      as (m & l & Hm & Hl & Hlt & ->).
    exists content, m, l. repeat split; trivial.
  - cbn [bind] in H. injection H as <- <-. split; [reflexivity|].
    exists e. split; [reflexivity|]. now left.
Qed.

Lemma X3_serve_status_errors_witness :
  500%N = 500%N /\
  exists e,
    Some (OSError
      (lit "[Errno 2] No such file or directory: 'MODULE_STATUS.md'"))
      = Some e /\
    (read_module_status no_document_world = Raise e \/
     exists content m l,
       read_module_status no_document_world = Ok content /\
       In m (findall pattern content) /\
       limit_value (int_max_str_digits no_document_world) = Some l /\
       l < List.length (nth 4 m []) /\
       e = ValueError_exceeds_limit l (List.length (nth 4 m []))).
Proof.
  apply (X3_serve_status_errors no_document_world). reflexivity.
Defined.

(** The second way is met: under the smallest limit, 640 digits, a
    percentage of 641 digits makes the handler answer HTTP 500. *)
Lemma long_percentage_gives_500 :
  serve_status
    (with_document long_limit_world
       (lit "| 1 | Core | " ++ [0xFC%N] ++ lit " Blocked | " ++
        repeat 0x39%N 641 ++ lit "% |")) =
  Error 500 (Some (ValueError_exceeds_limit 640 641)).
Proof. vm_compute. reflexivity. Qed.

(** *** What the handler reads of the world *)

Lemma same_probes_commits w1 w2 num :
  int_max_str_digits w1 = int_max_str_digits w2 ->
  same_probes w1 w2 -> is_digits num ->
  get_module_commits w1 num = get_module_commits w2 num /\
  get_last_activity w1 num = get_last_activity w2 num.
Proof.
  intros Hlim Hsame Hnum. destruct (Hsame num Hnum) as (Hp & Hr).
  unfold get_module_commits, get_last_activity.
  now rewrite Hp, !Hr, Hlim.
Qed.

Lemma same_probes_entries w1 w2 content :
  int_max_str_digits w1 = int_max_str_digits w2 ->
  same_probes w1 w2 ->
  forall matches, incl matches (findall pattern content) ->
  entries w1 matches = entries w2 matches.
Proof.
  intros Hlim Hsame. induction matches as [|m rest IH]; intros Hincl;
    [reflexivity|].
  assert (Hin : In m (findall pattern content)) by (apply Hincl; now left).
  destruct (findall_derives pattern content m (pattern_over_consuming _) Hin)
    as (t & Hd).
  apply derives_table_row in Hd.
  destruct Hd as [num nm gl tx pc Hnum Hdig _ _ _ _ _ _ _].
  cbn [entries]. rewrite IH by (intros x Hx; apply Hincl; now right).
  unfold module_entry. cbn [unpack5 bind]. rewrite Hlim.
  destruct (same_probes_commits w1 w2 num Hlim Hsame (conj Hnum Hdig))
    as (-> & ->).
  reflexivity.
Qed.

(** X4: the answer of [serve_status] depends on the world through the
    text of the document, the limit of [int()], the clock, and the answers
    of [os.path.exists] and [git] for directories [../dawg-module-<digits>]
    only: it consults no other path, and not the working directory. *)
Theorem X4_serve_status_frame w1 w2 :
  read_module_status w1 = read_module_status w2 ->
  int_max_str_digits w1 = int_max_str_digits w2 ->
  now_isoformat w1 = now_isoformat w2 ->
  same_probes w1 w2 ->
  serve_status w1 = serve_status w2.
Proof.
  intros Hread Hlim Hnow Hsame. unfold serve_status, parse_modules.
  rewrite Hread, Hnow.
  destruct (read_module_status w2) as [content|e]; [|reflexivity].
  cbn [bind]. rewrite !fill_modules_entries.
  now rewrite (same_probes_entries w1 w2 content Hlim Hsame _ (incl_refl _)).
Qed.

Lemma X4_serve_status_frame_witness :
  serve_status (with_document (git_world 0 []) (join LF duplicate_rows)) =
  serve_status (with_document slash_world (join LF duplicate_rows)).
Proof.
  apply X4_serve_status_frame; try reflexivity.
  intros num Hnum. split; [|reflexivity].
  cbn [with_document path_exists git_world slash_world].
  unfold module_dir. symmetry. apply negb_true_iff, eqb_neq.
  destruct Hnum as [_ Hd]. intros E.
  assert (Hin : In 0x2F%N (lit "/srv/dawg-ai")) by (vm_compute; tauto).
  rewrite <- E in Hin. apply in_app_or in Hin. destruct Hin as [Hin|Hin].
  - vm_compute in Hin. intuition discriminate.
  - rewrite forallb_forall in Hd. specialize (Hd _ Hin). discriminate Hd.
Defined.

(** *** Documents without rows *)

Lemma no_percent_no_match glyphs s :
  ~ In 0x25%N s -> findall (pattern_over glyphs) s = [].
Proof.
  intros Hfree.
  destruct (findall (pattern_over glyphs) s) as [|m ms] eqn:E;
    [reflexivity|exfalso].
  destruct (findall_located (pattern_over glyphs) s m
              (pattern_over_consuming glyphs))
    as (t & b & a & Hd & Hs); [rewrite E; now left|].
  apply derives_table_row in Hd. destruct Hd.
  apply Hfree. rewrite Hs, !in_app_iff. right. left. do 10 right. now left.
Qed.

(** X5: for a document that holds no code point of the glyph class, or no
    percent sign, the empty document among them, the handler answers with
    a success response and an empty [modules] dictionary. *)
Theorem X5_no_rows_empty_snapshot w content :
  glyph_free status_glyphs content \/ ~ In 0x25%N content ->
  serve_status (with_document w content) =
  Json (StatusJson [] (now_isoformat w)).
Proof.
  intros H. unfold serve_status, parse_modules.
  cbn [with_document read_module_status now_isoformat bind].
  replace (findall pattern content) with (@nil (list str)); [reflexivity|].
  symmetry. destruct H as [H|H].
  - now apply ParserClaims.no_glyph_no_match.
  - now apply no_percent_no_match.
Qed.

Lemma X5_no_rows_empty_snapshot_witness :
  serve_status (with_document (bare_world []) (lit "# Status: 50% done")) =
  Json (StatusJson [] (now_isoformat (bare_world []))).
Proof.
  apply (X5_no_rows_empty_snapshot (bare_world []) (lit "# Status: 50% done")).
  left. intros c Hc. vm_compute in Hc.
  repeat (destruct Hc as [<-|Hc]; [vm_compute; reflexivity|]).
  contradiction.
Defined.

(** *** Lines *)

(** X6: the matches of a document are those of its first line followed by
    those of its second line, and so on: no match spans two lines, and the
    rows are met in the order of the lines. *)
Theorem X6_matches_line_by_line lines :
  findall pattern (join LF lines) = List.concat (map (findall pattern) lines).
Proof.
  apply findall_join.
  - exact pattern_single_line.
  - apply pattern_over_consuming.
Qed.

(** *** How many records *)

Lemma table_row_length glyphs t g :
  table_row glyphs t g -> 18 <= List.length t.
Proof.
  intros [num nm gl tx pc H1 _ H3 _ _ H6 _ H8 _].
  rewrite !length_app. simpl.
  destruct num; [congruence|]. destruct nm; [congruence|].
  destruct tx; [congruence|]. destruct pc; [congruence|].
  simpl. lia.
Qed.

Lemma scan_length glyphs s gs :
  scan (pattern_over glyphs) s gs -> 18 * List.length gs <= List.length s.
Proof.
  induction 1 as [|c s gs _ IH|t rest g gs Hd _ IH]; simpl; [lia|lia|].
  apply derives_table_row, table_row_length in Hd.
  rewrite length_app. lia.
Qed.

(** X7: a match of the pattern takes at least 18 code points and matches
    do not overlap, so a snapshot has at most one record for every 18 code
    points of the document. *)
Theorem X7_snapshot_size w content modules updated :
  serve_status (with_document w content) = Json (StatusJson modules updated) ->
  18 * List.length modules <= List.length content.
Proof.
  intros H. apply serve_status_inv in H.
  destruct H as (c & kvs & Hr & He & -> & _).
  simpl in Hr. injection Hr as <-.
  pose proof (findall_scan pattern (pattern_over_consuming _) content) as Hs.
  apply scan_length in Hs.
  assert (Hlen : List.length (assign_all [] kvs)
                 <= List.length (findall pattern content)).
  { rewrite <- (length_map fst (assign_all [] kvs)).
    change (map fst (assign_all [] kvs)) with (keys (assign_all [] kvs)).
    rewrite keys_snapshot, (entries_keys _ _ _ He), <- (length_map module_num_of).
    generalize (map module_num_of (findall pattern content)).
    induction l as [|k l IH]; simpl; [lia|].
    pose proof (filter_length_le
                  (fun k' => negb (PyStr.eqb k' k)) (first_occurrences l)).
    lia. }
  lia.
Qed.

Lemma X7_snapshot_size_witness :
  18 * List.length [(lit "3", mixer_info); (lit "4", effects_info)]
  <= List.length (join LF duplicate_rows).
Proof.
  apply (X7_snapshot_size (bare_world []) (join LF duplicate_rows) _
           (now_isoformat (bare_world []))).
  vm_compute. reflexivity.
Defined.

End StatusCoverage.

(** ** Rows the pattern takes whole *)

Module RowCoverage.

Lemma plus_backtrack_stop {T} greedy p s (k : str -> option T) :
  match s with [] => True | c :: _ => p c = false end ->
  plus_backtrack greedy p s k = None.
Proof. destruct s as [|c s]; simpl; [reflexivity|]. now intros ->. Qed.

(** A greedy repeat followed by a continuation that accepts what is left
    after the longest run. *)
Lemma greedy_take {T} p (K : str -> option T) rest t : forall ds,
  ds <> [] -> forallb p ds = true ->
  match rest with [] => True | c :: _ => p c = false end ->
  K rest = Some t ->
  plus_backtrack true p (ds ++ rest) K = Some t.
Proof.
  induction ds as [|c ds IH]; intros Hne Hall Hrest HK; [congruence|].
  simpl in Hall. apply andb_true_iff in Hall. destruct Hall as [Hc Hall].
  simpl. rewrite Hc. destruct ds as [|c' ds].
  - simpl. rewrite (plus_backtrack_stop true p rest K Hrest). exact HK.
  - rewrite IH; [reflexivity|discriminate|assumption..].
Qed.

(** A lazy repeat followed by a continuation that rejects every earlier
    stop. *)
Lemma lazy_take {T} p (K : str -> option T) rest t : forall w,
  w <> [] -> forallb p w = true ->
  K rest = Some t ->
  (forall w1 w2, w = w1 ++ w2 -> w1 <> [] -> w2 <> [] ->
     K (w2 ++ rest) = None) ->
  plus_backtrack false p (w ++ rest) K = Some t.
Proof.
  induction w as [|c w IH]; intros Hne Hall HK Hfail; [congruence|].
  simpl in Hall. apply andb_true_iff in Hall. destruct Hall as [Hc Hall].
  simpl. rewrite Hc. destruct w as [|c' w].
  - simpl. now rewrite HK.
  - rewrite (Hfail [c] (c' :: w) eq_refl) by discriminate.
    apply IH; [discriminate|assumption..|].
    intros w1 w2 E H1 H2. apply (Hfail (c :: w1) w2); [|discriminate|exact H2].
    simpl. now rewrite E.
Qed.

Lemma bt_chr {T} c R s g (k : str -> list str -> option T) :
  backtrack (Seq (Chr c) R) (c :: s) g k = backtrack R s g k.
Proof. simpl. now rewrite N.eqb_refl. Qed.

Lemma bt_cls {T} p R c s g (k : str -> list str -> option T) :
  p c = true ->
  backtrack (Seq (Grp (Cls p)) R) (c :: s) g k = backtrack R s (g ++ [[c]]) k.
Proof.
  intros H. cbn [backtrack]. rewrite H.
  change (c :: s) with ([c] ++ s). now rewrite firstn_consumed.
Qed.

Lemma bt_greedy {T} p R ds rest g (k : str -> list str -> option T) t :
  ds <> [] -> forallb p ds = true ->
  match rest with [] => True | c :: _ => p c = false end ->
  backtrack R rest (g ++ [ds]) k = Some t ->
  backtrack (Seq (Grp (Plus true p)) R) (ds ++ rest) g k = Some t.
Proof.
  intros Hne Hall Hrest HR. cbn [backtrack].
  apply greedy_take; trivial. now rewrite firstn_consumed.
Qed.

Lemma bt_lazy {T} p R w rest g (k : str -> list str -> option T) t :
  w <> [] -> forallb p w = true ->
  backtrack R rest (g ++ [w]) k = Some t ->
  (forall w1 w2 g', w = w1 ++ w2 -> w1 <> [] -> w2 <> [] ->
     backtrack R (w2 ++ rest) g' k = None) ->
  backtrack (Seq (Grp (Plus false p)) R) (w ++ rest) g k = Some t.
Proof.
  intros Hne Hall HR Hfail. cbn [backtrack].
  apply lazy_take; trivial.
  - now rewrite firstn_consumed.
  - intros w1 w2 E H1 H2. now apply (Hfail w1 w2).
Qed.

(** The separator [ | ] does not match where the second code point is not
    a vertical bar. *)
Lemma separator_needs_bar {T} R s g (k : str -> list str -> option T) :
  nth 1 s 0%N <> 0x7C%N ->
  backtrack (Seq (Chr 32%N) (Seq (Chr 0x7C%N) R)) s g k = None.
Proof.
  intros H. destruct s as [|x [|y s]]; cbn [backtrack];
    try reflexivity; try (now destruct (x =? 32)%N).
  destruct (x =? 32)%N; [|reflexivity].
  simpl in H. apply N.eqb_neq in H. now rewrite H.
Qed.

Lemma plain_suffix_no_bar w1 w2 rest :
  ~ In 0x7C%N (w1 ++ w2) -> w2 <> [] ->
  nth 1 (w2 ++ 32%N :: rest) 0%N <> 0x7C%N.
Proof.
  intros Hfree Hne. destruct w2 as [|x [|y w2]]; [congruence| |].
  - simpl. discriminate.
  - simpl. intros ->. apply Hfree. apply in_or_app. right. right. now left.
Qed.

Lemma dot_of_line s : ~ In LF s -> forallb dot s = true.
Proof.
  intros H. apply forallb_forall. intros c Hc. unfold dot.
  apply negb_true_iff, N.eqb_neq. congruence.
Qed.

(** At the start of a well-formed row the matcher takes the row, with its
    five fields as the groups. *)
Lemma match_at_entry glyphs r rest :
  is_digits (t_num r) -> is_digits (t_pct r) ->
  plain_field (t_name r) -> plain_field (t_text r) ->
  one_of glyphs (t_glyph r) = true ->
  match_at (pattern_over glyphs)
    (table_line (t_num r) (t_name r) (t_glyph r) (t_text r) (t_pct r) ++ rest)
  = Some (rest, entry_groups r).
Proof.
  destruct r as [num nm gl tx pc tail]. cbn [t_num t_name t_glyph t_text t_pct].
  intros [Hn1 Hn2] [Hp1 Hp2] (Hm1 & Hm2 & Hm3) (Ht1 & Ht2 & Ht3) Hg.
  unfold match_at, table_line, entry_groups.
  cbn [t_num t_name t_glyph t_text t_pct]. rewrite pattern_over_eq.
  change (lit "| ") with [0x7C%N; 32%N].
  change (lit " | ") with [32%N; 0x7C%N; 32%N].
  change (lit " ") with [32%N]. change (lit "%") with [37%N].
  repeat rewrite <- app_assoc. cbn [app].
  rewrite !bt_chr.
  apply bt_greedy; trivial. cbn [app]. rewrite !bt_chr.
  apply bt_lazy; trivial; [now apply dot_of_line| |].
  2:{ intros w1 w2 g' E _ H2. apply separator_needs_bar.
      apply (plain_suffix_no_bar w1); [|assumption].
      intros Hin. apply Hm3. now rewrite E. }
  rewrite !bt_chr, bt_cls by assumption. rewrite !bt_chr.
  apply bt_lazy; trivial; [now apply dot_of_line| |].
  2:{ intros w1 w2 g' E _ H2. apply separator_needs_bar.
      apply (plain_suffix_no_bar w1); [|assumption].
      intros Hin. apply Ht3. now rewrite E. }
  rewrite !bt_chr.
  apply bt_greedy; trivial; rewrite bt_chr; reflexivity.
Qed.

Lemma findall_entry glyphs r rest :
  is_digits (t_num r) -> is_digits (t_pct r) ->
  plain_field (t_name r) -> plain_field (t_text r) ->
  one_of glyphs (t_glyph r) = true ->
  findall (pattern_over glyphs)
    (table_line (t_num r) (t_name r) (t_glyph r) (t_text r) (t_pct r) ++ rest)
  = entry_groups r :: findall (pattern_over glyphs) rest.
Proof.
  intros H1 H2 H3 H4 H5.
  rewrite findall_eq by apply pattern_over_consuming.
  rewrite (match_at_entry glyphs r rest) by assumption.
  reflexivity.
Qed.

Lemma findall_entry_line glyphs r :
  well_formed glyphs r ->
  findall (pattern_over glyphs) (entry_line r) = [entry_groups r].
Proof.
  intros (H1 & H2 & _ & H3 & H4 & H5 & H6). unfold entry_line.
  rewrite findall_entry by assumption.
  now rewrite (ParserClaims.no_glyph_no_match glyphs (t_tail r)).
Qed.

Lemma findall_entry_lines glyphs :
  one_of glyphs LF = false ->
  forall rows, Forall (well_formed glyphs) rows ->
  findall (pattern_over glyphs) (join LF (map entry_line rows)) =
  map entry_groups rows.
Proof.
  intros Hlf rows Hall.
  rewrite findall_join;
    [|now apply pattern_over_single_line|apply pattern_over_consuming].
  induction Hall as [|r rows Hr _ IH]; [reflexivity|].
  simpl. now rewrite findall_entry_line, IH.
Qed.

Lemma entries_well_formed w : forall rows,
  Forall (well_formed status_glyphs) rows ->
  entries w (map entry_groups rows) = Ok (map (entry_record w) rows).
Proof.
  induction 1 as [|r rows Hr _ IH]; [reflexivity|].
  destruct Hr as (_ & [Hp1 Hp2] & Hlen & _).
  cbn [map entries]. unfold module_entry, entry_groups at 1.
  cbn [unpack5 bind]. rewrite (int_digits_short _ _ Hp1 Hp2 Hlen).
  cbn [bind]. rewrite IH. reflexivity.
Qed.

Lemma assign_all_fresh {V} : forall (kvs : list (str * V)) (d : dict V),
  NoDup (keys d ++ map fst kvs) -> assign_all d kvs = d ++ kvs.
Proof.
  induction kvs as [|[k v] kvs IH]; intros d Hnd.
  - simpl. now rewrite app_nil_r.
  - rewrite assign_all_cons. simpl fst. simpl snd.
    assert (Hk : ~ In k (keys d)).
    { apply NoDup_remove_2 in Hnd. intros Hin. apply Hnd.
      apply in_or_app. now left. }
    assert (Hset : dict_set k v d = d ++ [(k, v)]).
    { clear - Hk. induction d as [|[k' v'] d IH]; [reflexivity|].
      simpl in *. destruct (PyStr.eqb k k') eqn:E.
      - apply eqb_eq in E. subst. tauto.
      - rewrite IH by tauto. reflexivity. }
    rewrite Hset, IH.
    + now rewrite <- app_assoc.
    + unfold keys in *. rewrite map_app, <- app_assoc. exact Hnd.
Qed.

(** X8: for a document whose lines are well-formed rows, each followed by
    text without glyphs, the handler answers with a snapshot
    that assigns, in the order of the lines, the record of each row under
    its number, with the name and the text stripped and the percentage
    converted; when the numbers are pairwise distinct the snapshot is that
    list of records. *)
Theorem X8_well_formed_rows w rows :
  Forall (well_formed status_glyphs) rows ->
  serve_status (with_document w (join LF (map entry_line rows))) =
    Json (StatusJson (assign_all [] (map (entry_record w) rows))
                     (now_isoformat w)) /\
  (NoDup (map t_num rows) ->
   assign_all [] (map (entry_record w) rows) = map (entry_record w) rows).
Proof.
  intros Hall. split.
  - unfold serve_status, parse_modules.
    cbn [with_document read_module_status now_isoformat bind].
    rewrite fill_modules_with_document, fill_modules_entries.
    unfold pattern. rewrite findall_entry_lines by (trivial; reflexivity).
    rewrite (entries_well_formed w rows Hall). reflexivity.
  - intros Hnd. apply (assign_all_fresh (map (entry_record w) rows) []).
    simpl. rewrite map_map. exact Hnd.
Qed.

Lemma X8_well_formed_rows_witness :
  serve_status (with_document (bare_world [])
                  (join LF (map entry_line [mixer_row; effects_row]))) =
    Json (StatusJson
            (assign_all [] (map (entry_record (bare_world []))
                                [mixer_row; effects_row]))
            (now_isoformat (bare_world []))) /\
  (NoDup (map t_num [mixer_row; effects_row]) ->
   assign_all [] (map (entry_record (bare_world [])) [mixer_row; effects_row])
   = map (entry_record (bare_world [])) [mixer_row; effects_row]).
Proof.
  apply (X8_well_formed_rows (bare_world []) [mixer_row; effects_row]).
  repeat constructor; try discriminate;
    try (vm_compute; reflexivity); try (vm_compute; lia);
    try (vm_compute; intuition discriminate);
    try (intros c Hc; vm_compute in Hc;
         repeat (destruct Hc as [<-|Hc]; [vm_compute; reflexivity|]);
         contradiction).
Defined.

End RowCoverage.

(** ** The probes *)

Module ProbeCoverage.

(** X9: [get_module_commits] returns a count other than 0 only when the
    directory of the module exists, [git rev-list --count HEAD] has run and
    exited with status 0, and [int()] reads that count from its output
    without surrounding whitespace. *)
Theorem X9_commits_come_from_git w num :
  get_module_commits w num <> 0%Z ->
  path_exists w (module_dir num) = true /\
  exists p,
    subprocess_run w [lit "git"; lit "rev-list"; lit "--count"; lit "HEAD"]
                   (module_dir num) = Ok p /\
    returncode p = 0%Z /\
    int (int_max_str_digits w) (strip (stdout p))
      = Ok (get_module_commits w num).
Proof.
  unfold get_module_commits.
  destruct (path_exists w (module_dir num)); [|congruence].
  destruct (subprocess_run w _ (module_dir num)) as [p|e]; [|cbn; congruence].
  cbn [bind]. destruct (returncode p =? 0)%Z eqn:E; [|cbn; congruence].
  destruct (int (int_max_str_digits w) (strip (stdout p))) as [n|e] eqn:Ei;
    [|cbn; congruence].
  cbn [bind]. intros _. split; [reflexivity|]. exists p.
  apply Z.eqb_eq in E. auto.
Qed.

Lemma X9_commits_come_from_git_witness :
  path_exists effects_repo_world (module_dir (lit "4")) = true /\
  exists p,
    subprocess_run effects_repo_world
      [lit "git"; lit "rev-list"; lit "--count"; lit "HEAD"]
      (module_dir (lit "4")) = Ok p /\
    returncode p = 0%Z /\
    int (int_max_str_digits effects_repo_world) (strip (stdout p))
      = Ok (get_module_commits effects_repo_world (lit "4")).
Proof.
  apply (X9_commits_come_from_git effects_repo_world (lit "4")).
  vm_compute. discriminate.
Defined.

Lemma digits_are_a_word ds :
  forallb isdecimal ds = true ->
  forallb (fun c => negb (isspace c)) ds = true.
Proof.
  intros H. apply forallb_forall. intros c Hc.
  rewrite forallb_forall in H. specialize (H c Hc).
  apply negb_true_iff. destruct (isspace c) eqn:E; [|reflexivity].
  apply whitespace_not_decimal in E. congruence.
Qed.

(** X10: when the directory of the module exists and [git] exits with
    status 0 after printing a count of at most 640 digits, followed by
    whitespace such as the line feed, [get_module_commits] returns that
    count. *)
Theorem X10_commits_read_from_output w num p ds ws :
  path_exists w (module_dir num) = true ->
  subprocess_run w [lit "git"; lit "rev-list"; lit "--count"; lit "HEAD"]
                 (module_dir num) = Ok p ->
  returncode p = 0%Z ->
  stdout p = ds ++ ws ->
  is_digits ds -> List.length ds <= 640 -> forallb isspace ws = true ->
  get_module_commits w num = Z.of_N (digits_value ds).
Proof.
  intros Hdir Hrun Hrc Hout [Hne Hds] Hlen Hws.
  unfold get_module_commits. rewrite Hdir, Hrun. cbn [bind].
  rewrite Hrc, Hout. cbn [Z.eqb].
  rewrite strip_word_spaces by (trivial; now apply digits_are_a_word).
  now rewrite int_digits_short.
Qed.

Lemma X10_commits_read_from_output_witness :
  get_module_commits effects_repo_world (lit "4")
  = Z.of_N (digits_value (lit "12")).
Proof.
  apply (X10_commits_read_from_output effects_repo_world (lit "4")
           {| returncode := 0; stdout := lit "12" ++ [LF] |}
           (lit "12") [LF]).
  - reflexivity.
  - reflexivity.
  - reflexivity.
  - reflexivity.
  - split; [discriminate|reflexivity].
  - simpl. lia.
  - reflexivity.
Defined.

(** X11: what [get_last_activity] returns has no whitespace at either end;
    and when it is not "Never", the directory of the module exists,
    [git log -1 --format=%ar] has run and exited with status 0, and the
    result is its output, stripped. *)
Theorem X11_last_activity w num :
  stripped (get_last_activity w num) /\
  (get_last_activity w num <> lit "Never" ->
   path_exists w (module_dir num) = true /\
   exists p,
     subprocess_run w [lit "git"; lit "log"; lit "-1"; lit "--format=%ar"]
                    (module_dir num) = Ok p /\
     returncode p = 0%Z /\
     get_last_activity w num = strip (stdout p)).
Proof.
  unfold get_last_activity, stripped.
  assert (Hnever : strip (lit "Never") = lit "Never") by reflexivity.
  destruct (path_exists w (module_dir num)); [|split; [assumption|congruence]].
  destruct (subprocess_run w _ (module_dir num)) as [p|e];
    [|split; [assumption|cbn; congruence]].
  cbn [bind]. destruct (returncode p =? 0)%Z eqn:E;
    [|split; [assumption|cbn; congruence]].
  split; [apply strip_idem|]. intros _. split; [reflexivity|].
  exists p. apply Z.eqb_eq in E. auto.
Qed.

Lemma X11_last_activity_witness :
  stripped (get_last_activity effects_repo_world (lit "4")) /\
  path_exists effects_repo_world (module_dir (lit "4")) = true /\
  exists p,
    subprocess_run effects_repo_world
      [lit "git"; lit "log"; lit "-1"; lit "--format=%ar"]
      (module_dir (lit "4")) = Ok p /\
    returncode p = 0%Z /\
    get_last_activity effects_repo_world (lit "4") = strip (stdout p).
Proof.
  destruct (X11_last_activity effects_repo_world (lit "4")) as (Hs & Hp).
  split; [exact Hs|]. apply Hp. vm_compute. discriminate.
Defined.

End ProbeCoverage.

(** ** More on the commit list *)

Module TimelineCoverage.

Lemma fold_append_commit : forall lines commit_list,
  fold_left append_commit lines commit_list =
  commit_list ++
  map entry_of_line (filter two_segments lines).
Proof.
  induction lines as [|l lines IH]; intros commit_list; simpl.
  - now rewrite app_nil_r.
  - rewrite IH, TimelineClaims.append_commit_eq.
    destruct (two_segments l); [|reflexivity].
    simpl. now rewrite <- app_assoc.
Qed.

(** The commit list is made of the entries of the lines of two segments or
    more, in the order of the lines. *)
Lemma parse_git_log_eq out :
  parse_git_log out =
  map entry_of_line (filter two_segments (split_on LF out)).
Proof. unfold parse_git_log. now rewrite fold_append_commit. Qed.

Lemma split_second_segment line :
  two_segments line = true ->
  forallb (fun c => negb (isspace c)) (nth 1 (split 2 line) []) = true.
Proof.
  unfold two_segments. rewrite (split_eq 2 line).
  destruct (lstrip line) as [|c s] eqn:E; [discriminate|].
  destruct (word (c :: s)) as [w rest].
  rewrite (split_eq 1 rest).
  destruct (lstrip rest) as [|c' s'] eqn:E'; [discriminate|].
  destruct (word (c' :: s')) as [w' rest'] eqn:Ew.
  intros _. cbn [nth]. now apply word_spec in Ew.
Qed.

Lemma split_not_nil_line n line : split n line <> [] -> line <> [].
Proof.
  intros H ->. apply H. rewrite split_eq. reflexivity.
Qed.

Lemma third_segment_not_empty line :
  (2 <? List.length (split 2 line))%nat = true ->
  nth 2 (split 2 line) [] <> [].
Proof.
  rewrite (split_eq 2 line).
  destruct (lstrip line) as [|c s]; [discriminate|].
  destruct (word (c :: s)) as [w rest].
  rewrite (split_eq 1 rest).
  destruct (lstrip rest) as [|c' s']; [discriminate|].
  destruct (word (c' :: s')) as [w' rest'].
  rewrite (split_eq 0 rest').
  destruct (lstrip rest') as [|c'' s'']; [discriminate|].
  intros _. discriminate.
Qed.

Lemma filter_none {A} (f : A -> bool) : forall l,
  (forall x, In x l -> f x = false) -> filter f l = [].
Proof.
  induction l as [|x l IH]; intros H; [reflexivity|].
  simpl. rewrite (H x) by now left. apply IH. intros y Hy. apply H. now right.
Qed.

(** X12: every entry of the commit list has a hash of one to seven code
    points, none of them whitespace, an empty time, and a message that is
    not empty and holds no line feed. *)
Theorem X12_commit_entries out e :
  In e (parse_git_log out) ->
  1 <= List.length (hash e) <= 7 /\
  forallb (fun c => negb (isspace c)) (hash e) = true /\
  time e = [] /\
  message e <> [] /\ ~ In LF (message e).
Proof.
  rewrite parse_git_log_eq. intros H.
  apply in_map_iff in H. destruct H as (line & <- & Hin).
  apply filter_In in Hin. destruct Hin as [Hline Htwo].
  pose proof (split_on_no_sep LF out line Hline) as Hlf.
  unfold entry_of_line. cbn [hash message time].
  split; [|split; [|split; [reflexivity|]]].
  - split.
    + pose proof (TimelineClaims.second_segment_not_empty line Htwo) as Hne.
      destruct (nth 1 (split 2 line) []); [congruence|simpl; lia].
    + apply firstn_le_length.
  - pose proof (split_second_segment line Htwo) as Hw.
    rewrite forallb_forall in Hw. apply forallb_forall.
    intros c Hc. apply Hw.
    rewrite <- (firstn_skipn 7 (nth 1 (split 2 line) [])).
    apply in_or_app. now left.
  - destruct (2 <? List.length (split 2 line))%nat eqn:E3.
    + split; [now apply third_segment_not_empty|].
      intros Hc. apply Hlf.
      apply (split_incl 2 line (nth 2 (split 2 line) []) LF); [|assumption].
      apply nth_In. now apply Nat.ltb_lt.
    + split; [|assumption].
      apply (split_not_nil_line 2). unfold two_segments in Htwo.
      apply Nat.leb_le in Htwo. intros E. rewrite E in Htwo. simpl in Htwo. lia.
Qed.

Lemma X12_commit_entries_witness :
  1 <= List.length (lit "dac044f") <= 7 /\
  forallb (fun c => negb (isspace c)) (lit "dac044f") = true /\
  @nil codepoint = [] /\
  lit "init" <> [] /\ ~ In LF (lit "init").
Proof.
  apply (X12_commit_entries (join LF merge_graph)
           {| hash := lit "dac044f"; message := lit "init"; time := [] |}).
  vm_compute. do 20 right. left. reflexivity.
Defined.

(** X13: the commit list of an output is the list of what stands before a
    line feed followed by the list of what stands after it. *)
Theorem X13_commit_list_by_lines a b :
  parse_git_log (a ++ LF :: b) = parse_git_log a ++ parse_git_log b.
Proof.
  rewrite !parse_git_log_eq, split_on_lines, filter_app, map_app.
  reflexivity.
Qed.

(** X14: when [git] prints nothing, or whitespace only, as for a
    repository without commits, the handler answers with a success
    response and an empty commit list. *)
Theorem X14_blank_output w cwd p :
  getcwd w = Ok cwd ->
  subprocess_run w git_log_argv cwd = Ok p ->
  forallb isspace (stdout p) = true ->
  serve_git_activity w = Json (GitJson []).
Proof.
  intros Hcwd Hrun Hblank. unfold serve_git_activity.
  rewrite Hcwd. cbn [bind]. rewrite Hrun. cbn [bind].
  rewrite parse_git_log_eq.
  replace (filter two_segments (split_on LF (stdout p))) with (@nil str);
    [reflexivity|].
  symmetry. apply filter_none. intros line Hline.
  unfold two_segments. rewrite split_blank; [reflexivity|].
  apply forallb_forall. intros c Hc.
  rewrite forallb_forall in Hblank. apply Hblank.
  now apply (split_on_incl LF (stdout p) line).
Qed.

Lemma X14_blank_output_witness :
  serve_git_activity (git_world 0 [LF]) = Json (GitJson []).
Proof.
  apply (X14_blank_output (git_world 0 [LF]) (lit "/srv/dawg-ai")
           {| returncode := 0; stdout := [LF] |}); reflexivity.
Defined.

(** *** A linear history *)

Lemma split_skip_space n c s :
  isspace c = true -> split n (c :: s) = split n s.
Proof.
  intros H. rewrite (split_eq n (c :: s)), (split_eq n s).
  unfold lstrip. cbn [lstrip_by]. now rewrite H.
Qed.

Lemma split_cut_word n w c rest :
  is_word w -> isspace c = true ->
  split (S n) (w ++ c :: rest) = w :: split n (c :: rest).
Proof.
  intros [Hne Hw] Hc. rewrite split_eq.
  destruct w as [|x w]; [congruence|].
  assert (Hx : isspace x = false).
  { simpl in Hw. apply andb_true_iff in Hw. now apply negb_true_iff. }
  unfold lstrip. cbn [app lstrip_by]. rewrite Hx.
  change (x :: w ++ c :: rest) with ((x :: w) ++ c :: rest).
  now rewrite word_app.
Qed.

Lemma split_remainder c s :
  isspace c = false -> split 0 (c :: s) = [c :: s].
Proof.
  intros H. rewrite split_eq. unfold lstrip. cbn [lstrip_by]. now rewrite H.
Qed.

Lemma split_commit_line h subject :
  is_word h -> is_subject subject ->
  split 2 (commit_line h subject) = [lit "*"; h; subject].
Proof.
  intros Hh (_ & c & s' & -> & Hc). unfold commit_line.
  change (lit "* " ++ h ++ lit " " ++ c :: s')
    with ([42%N] ++ 32%N :: h ++ 32%N :: c :: s').
  rewrite split_cut_word by (try split; try discriminate; reflexivity).
  rewrite split_skip_space by reflexivity.
  rewrite split_cut_word by (trivial; reflexivity).
  rewrite split_skip_space by reflexivity.
  now rewrite split_remainder.
Qed.

Lemma commit_line_no_LF h subject :
  is_word h -> is_subject subject -> ~ In LF (commit_line h subject).
Proof.
  intros [_ Hw] (Hs & _). unfold commit_line. rewrite !in_app_iff.
  intros [H|[H|[H|H]]].
  - vm_compute in H. intuition discriminate.
  - rewrite forallb_forall in Hw. specialize (Hw _ H). discriminate Hw.
  - vm_compute in H. intuition discriminate.
  - now apply Hs.
Qed.

(** X15: for a linear history, where [git] prints one line
    [* <hash> <subject>] for each commit, the commit list holds one entry
    for each commit, in the order printed, with the first seven code points
    of the hash and the subject as the message. *)
Theorem X15_linear_history w cwd p commit_lines :
  getcwd w = Ok cwd ->
  subprocess_run w git_log_argv cwd = Ok p ->
  Forall (fun c => is_word (fst c) /\ is_subject (snd c)) commit_lines ->
  stdout p =
    join LF (map (fun c => commit_line (fst c) (snd c)) commit_lines ++ [[]]) ->
  serve_git_activity w = Json (GitJson (map commit_entry_of commit_lines)).
Proof.
  intros Hcwd Hrun Hall Hout. unfold serve_git_activity.
  rewrite Hcwd. cbn [bind]. rewrite Hrun. cbn [bind].
  rewrite parse_git_log_eq, Hout. do 2 f_equal.
  rewrite split_on_join.
  - rewrite filter_app. cbn [filter]. change (two_segments []) with false.
    cbv iota. rewrite app_nil_r. clear Hout.
    induction Hall as [|[h subject] cs [Hh Hs] _ IH]; [reflexivity|].
    cbn [map filter fst snd].
    assert (Hsplit := split_commit_line h subject Hh Hs).
    unfold two_segments at 1. rewrite Hsplit. cbn [List.length Nat.leb].
    cbn [map]. rewrite IH. f_equal.
    unfold entry_of_line, commit_entry_of. rewrite Hsplit. reflexivity.
  - now destruct (map _ commit_lines).
  - intros l Hl. apply in_app_or in Hl. destruct Hl as [Hl|[<-|[]]]; [|tauto].
    apply in_map_iff in Hl. destruct Hl as ([h subject] & <- & Hc).
    rewrite Forall_forall in Hall. destruct (Hall _ Hc) as [Hh Hs].
    now apply commit_line_no_LF.
Qed.

Lemma X15_linear_history_witness :
  serve_git_activity (git_world 0 (join LF (three_commits ++ [[]]))) =
  Json (GitJson (map commit_entry_of
    [(lit "5d5e797", lit "(main) one"); (lit "6402fdb", lit "(o2) two");
     (lit "51fa43d", lit "(HEAD -> o3) three")])).
Proof.
  apply (X15_linear_history
           (git_world 0 (join LF (three_commits ++ [[]])))
           (lit "/srv/dawg-ai")
           {| returncode := 0; stdout := join LF (three_commits ++ [[]]) |}).
  - reflexivity.
  - reflexivity.
  - repeat constructor; try discriminate; try (vm_compute; reflexivity);
      try (vm_compute; intuition discriminate);
      cbn [snd]; eexists _, _; split; reflexivity.
  - reflexivity.
Defined.

(** X16: the commit list has at most one entry for each line of the
    output, the lines being one more than its line feeds. *)
Theorem X16_at_most_one_entry_per_line out :
  List.length (parse_git_log out) <= S (count_occ N.eq_dec out LF).
Proof.
  rewrite parse_git_log_eq, length_map, <- split_on_length.
  apply filter_length_le.
Qed.

(** The answer of [serve_git_activity] depends on the world through
    the working directory and the outcome of the one [git log] command
    only; in particular not through the status document. *)
Lemma git_activity_frame w1 w2 :
  getcwd w1 = getcwd w2 ->
  (forall cwd, getcwd w1 = Ok cwd ->
     subprocess_run w1 git_log_argv cwd = subprocess_run w2 git_log_argv cwd) ->
  serve_git_activity w1 = serve_git_activity w2.
Proof.
  intros Hcwd Hrun. unfold serve_git_activity. rewrite <- Hcwd.
  destruct (getcwd w1) as [cwd|e]; [|reflexivity].
  cbn [bind]. now rewrite (Hrun cwd eq_refl).
Qed.

Lemma git_activity_ignores_document :
  serve_git_activity (git_world 0 (join LF merge_graph)) =
  serve_git_activity
    (with_document (git_world 0 (join LF merge_graph)) overfull_row).
Proof.
  apply git_activity_frame; reflexivity.
Qed.

End TimelineCoverage.

(** ** The routes *)

Module RouteCoverage.

Lemma handlers_fail_with_500 w code detail :
  serve_status w = Error code detail \/
  serve_git_activity w = Error code detail ->
  code = 500%N /\ exists e, detail = Some e.
Proof.
  unfold serve_status, serve_git_activity, send_error.
  intros [H|H];
    match type of H with
    | match ?a with _ => _ end = _ =>
        destruct a as [b|e]; [discriminate|]
    end.
  - injection H as <- <-. split; [reflexivity|now exists e].
  - destruct (text_is_latin1 e); [|discriminate].
    injection H as <- <-. split; [reflexivity|now exists e].
Qed.

(** X17: [do_GET] answers 404 exactly for the paths other than [/],
    [/api/status] and [/api/git], compared code point by code point, so
    also for those paths followed by a query or a slash; every other error
    response is a 500 that carries the exception of the handler. *)
Theorem X17_routes w path :
  (~ known_route path -> do_GET w path = Error 404 None) /\
  (forall code detail, do_GET w path = Error code detail ->
     (code = 404%N /\ detail = None /\ ~ known_route path) \/
     (code = 500%N /\ (exists e, detail = Some e) /\ known_route path)).
Proof.
  unfold do_GET, known_route.
  destruct (PyStr.eqb path (lit "/")) eqn:E1.
  { apply eqb_eq in E1. split; [tauto|]. discriminate. }
  destruct (PyStr.eqb path (lit "/api/status")) eqn:E2.
  { apply eqb_eq in E2. split; [tauto|]. intros code detail H. right.
    destruct (handlers_fail_with_500 w code detail (or_introl H)). tauto. }
  destruct (PyStr.eqb path (lit "/api/git")) eqn:E3.
  { apply eqb_eq in E3. split; [tauto|]. intros code detail H. right.
    destruct (handlers_fail_with_500 w code detail (or_intror H)). tauto. }
  apply eqb_neq in E1, E2, E3. split; [reflexivity|].
  intros code detail H. injection H as <- <-. left. tauto.
Qed.

Lemma X17_routes_witness :
  do_GET (bare_world []) (lit "/api/status?verbose=1") = Error 404 None.
Proof.
  apply (X17_routes (bare_world []) (lit "/api/status?verbose=1")).
  unfold known_route. intuition discriminate.
Defined.

End RouteCoverage.
